(** * rego: a shallow embedding of the hooks runtime, the layout engine,
      the focus manager, the bridge and the main loop.

    Every definition follows a function of the Go sources (the file and the
    function are named in the comment above it).  Go [int] values are
    modelled as [Z] (no arithmetic of the modelled code gets near the
    64-bit bounds), runes as their code points in [Z], strings iterated
    with [range] as lists of runes, maps as stdpp [gmap]s, slices as
    lists, and pointers to heap objects either as explicit state that is
    threaded through the calls or as small identifiers. *)

From Stdlib Require Import ZArith List Bool Lia.
From stdpp Require Import base gmap strings list pretty.

Set Warnings "-register-all".

(* ===================================================================== *)
(** ** focus.go: the focus manager *)
(* ===================================================================== *)

Module Focus.

(** A [*componentContext] stored in the focus map is only kept, never
    inspected, by the manager: a reference is enough. *)
Definition ctxRef := nat.

(** [type FocusManager struct] (the mutex is not modelled: every method
    holds it for its whole body). *)
Record FocusManager := mkFocusManager {
  focusable : list string;
  focusMap : gmap string ctxRef;
  currentKey : string;
  order : Z;
  orderMap : gmap string Z
}.

(** [newFocusManager] *)
Definition newFocusManager : FocusManager :=
  {| focusable := []; focusMap := ∅; currentKey := "";
     order := 0; orderMap := ∅ |}.

(** [FocusManager.Register] *)
Definition Register (key : string) (ctx : ctxRef) (fm : FocusManager)
  : FocusManager :=
  match focusMap fm !! key with
  | Some _ => fm
  | None =>
      {| focusable := focusable fm ++ [key];
         focusMap := <[key := ctx]> (focusMap fm);
         currentKey := if decide (currentKey fm = "") then key
                       else currentKey fm;
         order := (order fm + 1)%Z;
         orderMap := <[key := order fm]> (orderMap fm) |}
  end.

(** [FocusManager.Unregister] *)
Fixpoint removeFirst (key : string) (l : list string) : list string :=
  match l with
  | [] => []
  | k :: l' => if decide (k = key) then l' else k :: removeFirst key l'
  end.

Definition Unregister (key : string) (fm : FocusManager) : FocusManager :=
  let fl := removeFirst key (focusable fm) in
  {| focusable := fl;
     focusMap := delete key (focusMap fm);
     currentKey := if decide (currentKey fm = key)
                   then match fl with k :: _ => k | [] => "" end
                   else currentKey fm;
     order := order fm;
     orderMap := delete key (orderMap fm) |}.

(** [FocusManager.Focus] *)
Definition SetFocus (key : string) (fm : FocusManager) : FocusManager :=
  match focusMap fm !! key with
  | Some _ =>
      {| focusable := focusable fm; focusMap := focusMap fm;
         currentKey := key; order := order fm; orderMap := orderMap fm |}
  | None => fm
  end.

(** [FocusManager.Current] and [FocusManager.IsFocused] *)
Definition Current (fm : FocusManager) : string := currentKey fm.

Definition IsFocused (key : string) (fm : FocusManager) : bool :=
  bool_decide (currentKey fm = key).

(** The search loop of [Next] and [Prev]: the index of the first entry
    equal to the current key, or [-1]. *)
Fixpoint indexFrom (i : Z) (key : string) (l : list string) : Z :=
  match l with
  | [] => (-1)%Z
  | k :: l' => if decide (k = key) then i else indexFrom (i + 1)%Z key l'
  end.

(** [FocusManager.Next] *)
Definition Next (fm : FocusManager) : FocusManager :=
  match focusable fm with
  | [] => fm
  | _ :: _ =>
      let currentIdx := indexFrom 0 (currentKey fm) (focusable fm) in
      let nextIdx := ((currentIdx + 1) `rem` Z.of_nat (length (focusable fm)))%Z in
      {| focusable := focusable fm; focusMap := focusMap fm;
         currentKey := default "" (focusable fm !! Z.to_nat nextIdx);
         order := order fm; orderMap := orderMap fm |}
  end.

(** [FocusManager.Prev] *)
Definition Prev (fm : FocusManager) : FocusManager :=
  match focusable fm with
  | [] => fm
  | _ :: _ =>
      let currentIdx := indexFrom 0 (currentKey fm) (focusable fm) in
      let prevIdx := (currentIdx - 1)%Z in
      let prevIdx := if (prevIdx <? 0)%Z
                     then (Z.of_nat (length (focusable fm)) - 1)%Z
                     else prevIdx in
      {| focusable := focusable fm; focusMap := focusMap fm;
         currentKey := default "" (focusable fm !! Z.to_nat prevIdx);
         order := order fm; orderMap := orderMap fm |}
  end.

(** [FocusManager.Reset]: the registration data is emptied, the current
    key is kept. *)
Definition Reset (fm : FocusManager) : FocusManager :=
  {| focusable := []; focusMap := ∅; currentKey := currentKey fm;
     order := 0; orderMap := ∅ |}.

(** The registrations of one render pass, in the order in which the
    components call [UseFocus]. *)
Definition registerAll (regs : list (string * ctxRef)) (fm : FocusManager)
  : FocusManager :=
  fold_left (fun m r => Register r.1 r.2 m) regs fm.

(** What [Runtime.render] does to the focus manager: [Reset], then the
    [Register] calls of the pass. *)
Definition rebuild (regs : list (string * ctxRef)) (fm : FocusManager)
  : FocusManager :=
  registerAll regs (Reset fm).

(** A sequence of render passes, each with its own registrations. *)
Definition renders (passes : list (list (string * ctxRef)))
  (fm : FocusManager) : FocusManager :=
  fold_left (fun m regs => rebuild regs m) passes fm.

(** The first key of a pass that is not the empty string (component paths
    are never empty: they start with the root key). *)
Definition firstKey (regs : list (string * ctxRef)) : string :=
  default "" (head (filter (fun k => k ≠ "") (regs.*1))).

(** The claim as the specification words it. *)
Definition rebuild_claim : Prop :=
  ∀ (fm : FocusManager) (regs : list (string * ctxRef)),
    (currentKey fm ∈ regs.*1 →
       currentKey (rebuild regs fm) = currentKey fm) ∧
    (currentKey fm ∉ regs.*1 →
       currentKey (rebuild regs fm) = default "" (head (regs.*1))).

End Focus.

(* ===================================================================== *)
(** ** The hooks runtime: state cells and effect slots *)
(* ===================================================================== *)

Module Hooks.

Section WithValues.

(** Go's [any] and [reflect.DeepEqual] (a library function that is not
    part of the repository) are parameters of the model. *)
Variable any : Type.
Variable DeepEqual : any → any → bool.

(** The part of the program state that effect bodies and their cleanups
    act on (counters, timers, ...): a Go closure [func()] is a function on
    it, a body [func() func()] also returns its cleanup, or [nil]. *)
Variable W : Type.

Definition cleanupFn := W → W.
Definition effectFn := W → option cleanupFn * W.

(** runtime.go, [Runtime]: of the runtime the hooks only use
    [refreshChan], a channel of [struct{}] with a buffer of one element:
    it is either empty ([false]) or holds one request ([true]). *)
Record Runtime := mkRuntime {
  refreshChan : bool
}.

(** runtime.go, [Runtime.scheduleRefresh]: a non-blocking send; when the
    buffer is full the [default] branch drops the request. *)
Definition scheduleRefresh (r : Runtime) : Runtime :=
  if refreshChan r then r else {| refreshChan := true |}.

(** [type effectSlot struct] *)
Record effectSlot := mkEffectSlot {
  deps : list any;
  cleanup : option cleanupFn;
  ran : bool
}.

(** context.go, [type componentContext struct]: the fields the hooks
    use.  [runtime] is a pointer to the one [Runtime] of the process, or
    [nil]: [hasRuntime] says which. *)
Record componentContext := mkContext {
  states : gmap string any;
  effects : gmap Z effectSlot;
  effectIndex : Z;
  hasRuntime : bool
}.

(** The heap the hooks of one component work on: its context record and
    the runtime it points to. *)
Record Heap := mkHeap {
  h_ctx : componentContext;
  h_runtime : Runtime
}.

(** [newComponentContext] *)
Definition newComponentContext (withRuntime : bool) : componentContext :=
  {| states := ∅; effects := ∅; effectIndex := 0;
     hasRuntime := withRuntime |}.

(** [componentContext.reset] *)
Definition reset (c : componentContext) : componentContext :=
  {| states := states c; effects := effects c; effectIndex := 0;
     hasRuntime := hasRuntime c |}.

(** [componentContext.getState] *)
Definition getState (key : string) (c : componentContext) : option any :=
  states c !! key.

(** [componentContext.setState] *)
Definition setState (key : string) (value : any) (c : componentContext)
  : componentContext :=
  {| states := <[key := value]> (states c); effects := effects c;
     effectIndex := effectIndex c; hasRuntime := hasRuntime c |}.

(** [componentContext.Refresh] *)
Definition Refresh (h : Heap) : Heap :=
  if hasRuntime (h_ctx h)
  then {| h_ctx := h_ctx h; h_runtime := scheduleRefresh (h_runtime h) |}
  else h.

(** [type State struct]: the handle a component holds; [ctx] is the
    context of the heap. *)
Record State := mkState {
  Val : any;
  key : string
}.

(** [State.Set] ([Set] is reserved in Rocq) *)
Definition State_Set (s : State) (value : any) (h : Heap) : State * Heap :=
  if DeepEqual (Val s) value then (s, h)
  else
    let s' := {| Val := value; key := key s |} in
    let h1 := {| h_ctx := setState (key s) value (h_ctx h);
                 h_runtime := h_runtime h |} in
    (s', Refresh h1).

(** [State.Update] *)
Definition State_Update (s : State) (fn : any → any) (h : Heap) : State * Heap :=
  State_Set s (fn (Val s)) h.

(** [Use] *)
Definition Use (k : string) (initial : any) (h : Heap) : State * Heap :=
  match getState k (h_ctx h) with
  | Some existing => ({| Val := existing; key := k |}, h)
  | None =>
      ({| Val := initial; key := k |},
       {| h_ctx := setState k initial (h_ctx h); h_runtime := h_runtime h |})
  end.

(** [depsEqual] *)
Fixpoint depsEqualFrom (a b : list any) : bool :=
  match a, b with
  | x :: a', y :: b' => if DeepEqual x y then depsEqualFrom a' b' else false
  | _, _ => true
  end.

Definition depsEqual (a b : list any) : bool :=
  if negb (length a =? length b)%nat then false else depsEqualFrom a b.

(** [componentContext.nextEffectKey] *)
Definition nextEffectKey (c : componentContext) : Z * componentContext :=
  (effectIndex c,
   {| states := states c; effects := effects c;
      effectIndex := (effectIndex c + 1)%Z; hasRuntime := hasRuntime c |}).

(** [componentContext.getEffectSlot] and [componentContext.setEffectSlot] *)
Definition getEffectSlot (k : Z) (c : componentContext) : option effectSlot :=
  effects c !! k.

Definition setEffectSlot (k : Z) (slot : effectSlot) (c : componentContext)
  : componentContext :=
  {| states := states c; effects := <[k := slot]> (effects c);
     effectIndex := effectIndex c; hasRuntime := hasRuntime c |}.

(** [UseEffect].  The slot is a pointer in the Go code: it is created and
    stored when absent, then updated in place when the effect runs. *)
Definition UseEffect (fn : effectFn) (ds : list any)
  (c : componentContext) (w : W) : componentContext * W :=
  let '(k, c) := nextEffectKey c in
  let '(slot, c) :=
    match getEffectSlot k c with
    | Some slot => (slot, c)
    | None =>
        let slot := {| deps := []; cleanup := None; ran := false |} in
        (slot, setEffectSlot k slot c)
    end in
  let shouldRun := negb (ran slot) || negb (depsEqual (deps slot) ds) in
  if shouldRun then
    let w := match cleanup slot with Some cl => cl w | None => w end in
    let '(cl, w) := fn w in
    (setEffectSlot k {| deps := ds; cleanup := cl; ran := true |} c, w)
  else (c, w).

(** [componentContext.cleanup], for one record without children: every
    stored cleanup is invoked (the iteration order of a Go map is not
    specified; the model takes the order of the keys). *)
Definition cleanupAll (c : componentContext) (w : W) : W :=
  fold_left (fun w kv => match cleanup kv.2 with Some cl => cl w | None => w end)
            (map_to_list (effects c)) w.

End WithValues.

Arguments mkEffectSlot {_ _}.
Arguments deps {_ _}.
Arguments cleanup {_ _}.
Arguments ran {_ _}.
Arguments mkContext {_ _}.
Arguments states {_ _}.
Arguments effects {_ _}.
Arguments effectIndex {_ _}.
Arguments hasRuntime {_ _}.
Arguments mkHeap {_ _}.
Arguments h_ctx {_ _}.
Arguments h_runtime {_ _}.
Arguments mkState {_}.
Arguments Val {_}.
Arguments key {_}.
Arguments reset {_ _}.
Arguments getState {_ _}.
Arguments setState {_ _}.
Arguments Refresh {_ _}.
Arguments State_Set {_} DeepEqual {_}.
Arguments Use {_ _}.
Arguments depsEqual {_} DeepEqual.
Arguments depsEqualFrom {_} DeepEqual.
Arguments nextEffectKey {_ _}.
Arguments getEffectSlot {_ _}.
Arguments setEffectSlot {_ _}.
Arguments UseEffect {_} DeepEqual {_}.
Arguments cleanupAll {_ _}.

(** The effect of [TestUseEffect]: the program state is the pair of the
    counters [runCount] and [cleanupCount]; the dependencies are strings,
    which [reflect.DeepEqual] compares as strings. *)
Definition countingEffect : effectFn (nat * nat) :=
  fun w => (Some (fun w' => (w'.1, S w'.2)), (S w.1, w.2)).

Definition depString (a b : string) : bool := bool_decide (a = b).

End Hooks.

(* ===================================================================== *)
(** ** The layout engine: styles, nodes, measuring and rendering *)
(* ===================================================================== *)

Module Layout.

Local Open Scope Z_scope.

Definition rune := Z.

(** context.go, [type Rect struct] and [Rect.Contains] *)
Record Rect := mkRect { X : Z; Y : Z; W : Z; H : Z }.

Definition Contains (r : Rect) (x y : Z) : bool :=
  bool_decide (x >= X r) && bool_decide (x < X r + W r) &&
  bool_decide (y >= Y r) && bool_decide (y < Y r + H r).

(** [type Color int], [type BorderStyle int], [type Align int] *)
Inductive Color :=
  Default | Black | Red | Green | Yellow | Blue | Magenta | Cyan | White | Gray.

Inductive BorderStyle :=
  BorderNone | BorderSingle | BorderDouble | BorderRounded | BorderThick.

Inductive Align := AlignLeft | AlignCenter | AlignRight.

Global Instance Color_eq_dec : EqDecision Color.
Proof. solve_decision. Defined.
Global Instance BorderStyle_eq_dec : EqDecision BorderStyle.
Proof. solve_decision. Defined.
Global Instance Align_eq_dec : EqDecision Align.
Proof. solve_decision. Defined.

(** [type Style struct] *)
Module Style.
Record t := mk {
  fg : Color; bg : Color;
  bold : bool; italic : bool; underline : bool; dim : bool; blink : bool;
  width : Z; height : Z; flex : Z;
  paddingTop : Z; paddingBottom : Z; paddingLeft : Z; paddingRight : Z;
  border : BorderStyle; borderColor : Color;
  align : Align; valign : Align
}.
End Style.

(** [defaultStyle] *)
Definition defaultStyle : Style.t :=
  {| Style.fg := Default; Style.bg := Default;
     Style.bold := false; Style.italic := false; Style.underline := false;
     Style.dim := false; Style.blink := false;
     Style.width := 0; Style.height := 0; Style.flex := 0;
     Style.paddingTop := 0; Style.paddingBottom := 0;
     Style.paddingLeft := 0; Style.paddingRight := 0;
     Style.border := BorderNone; Style.borderColor := Default;
     Style.align := AlignLeft; Style.valign := AlignLeft |}.

(** [Style.Height], [Style.Flex] and [Style.Padding] *)
Definition Style_Height (h : Z) (s : Style.t) : Style.t :=
  {| Style.fg := Style.fg s; Style.bg := Style.bg s;
     Style.bold := Style.bold s; Style.italic := Style.italic s;
     Style.underline := Style.underline s; Style.dim := Style.dim s;
     Style.blink := Style.blink s;
     Style.width := Style.width s; Style.height := h; Style.flex := Style.flex s;
     Style.paddingTop := Style.paddingTop s;
     Style.paddingBottom := Style.paddingBottom s;
     Style.paddingLeft := Style.paddingLeft s;
     Style.paddingRight := Style.paddingRight s;
     Style.border := Style.border s; Style.borderColor := Style.borderColor s;
     Style.align := Style.align s; Style.valign := Style.valign s |}.

Definition Style_Flex (f : Z) (s : Style.t) : Style.t :=
  {| Style.fg := Style.fg s; Style.bg := Style.bg s;
     Style.bold := Style.bold s; Style.italic := Style.italic s;
     Style.underline := Style.underline s; Style.dim := Style.dim s;
     Style.blink := Style.blink s;
     Style.width := Style.width s; Style.height := Style.height s;
     Style.flex := f;
     Style.paddingTop := Style.paddingTop s;
     Style.paddingBottom := Style.paddingBottom s;
     Style.paddingLeft := Style.paddingLeft s;
     Style.paddingRight := Style.paddingRight s;
     Style.border := Style.border s; Style.borderColor := Style.borderColor s;
     Style.align := Style.align s; Style.valign := Style.valign s |}.

Definition Style_Padding (v h : Z) (s : Style.t) : Style.t :=
  {| Style.fg := Style.fg s; Style.bg := Style.bg s;
     Style.bold := Style.bold s; Style.italic := Style.italic s;
     Style.underline := Style.underline s; Style.dim := Style.dim s;
     Style.blink := Style.blink s;
     Style.width := Style.width s; Style.height := Style.height s;
     Style.flex := Style.flex s;
     Style.paddingTop := v; Style.paddingBottom := v;
     Style.paddingLeft := h; Style.paddingRight := h;
     Style.border := Style.border s; Style.borderColor := Style.borderColor s;
     Style.align := Style.align s; Style.valign := Style.valign s |}.

(** The colours and the cell style of the terminal library, as far as
    the engine builds them. *)
Inductive tcellColor :=
  ColorDefault | ColorBlack | ColorRed | ColorGreen | ColorYellow | ColorBlue
| ColorDarkMagenta | ColorDarkCyan | ColorWhite | ColorGray.

Record tcellStyle := mkTcellStyle {
  t_fg : tcellColor; t_bg : tcellColor;
  t_bold : bool; t_italic : bool; t_underline : bool; t_dim : bool;
  t_blink : bool
}.

Definition StyleDefault : tcellStyle :=
  {| t_fg := ColorDefault; t_bg := ColorDefault; t_bold := false;
     t_italic := false; t_underline := false; t_dim := false;
     t_blink := false |}.

Definition Foreground (c : tcellColor) (s : tcellStyle) : tcellStyle :=
  {| t_fg := c; t_bg := t_bg s; t_bold := t_bold s; t_italic := t_italic s;
     t_underline := t_underline s; t_dim := t_dim s; t_blink := t_blink s |}.

Definition Background (c : tcellColor) (s : tcellStyle) : tcellStyle :=
  {| t_fg := t_fg s; t_bg := c; t_bold := t_bold s; t_italic := t_italic s;
     t_underline := t_underline s; t_dim := t_dim s; t_blink := t_blink s |}.

(** [colorToTcell] *)
Definition colorToTcell (c : Color) : tcellColor :=
  match c with
  | Black => ColorBlack | Red => ColorRed | Green => ColorGreen
  | Yellow => ColorYellow | Blue => ColorBlue | Magenta => ColorDarkMagenta
  | Cyan => ColorDarkCyan | White => ColorWhite | Gray => ColorGray
  | Default => ColorDefault
  end.

(** [Style.toTcell] *)
Definition toTcell (s : Style.t) : tcellStyle :=
  {| t_fg := colorToTcell (Style.fg s);
     t_bg := if decide (Style.bg s = Default) then ColorDefault
             else colorToTcell (Style.bg s);
     t_bold := Style.bold s; t_italic := Style.italic s;
     t_underline := Style.underline s; t_dim := Style.dim s;
     t_blink := Style.blink s |}.

(** [type BorderChars struct] and [getBorderChars] (runes as code points) *)
Record BorderChars := mkBorderChars {
  TopLeft : rune; TopRight : rune; BottomLeft : rune; BottomRight : rune;
  Horizontal : rune; Vertical : rune
}.

Definition getBorderChars (style : BorderStyle) : BorderChars :=
  match style with
  | BorderSingle => mkBorderChars 0x250C 0x2510 0x2514 0x2518 0x2500 0x2502
  | BorderDouble => mkBorderChars 0x2554 0x2557 0x255A 0x255D 0x2550 0x2551
  | BorderRounded => mkBorderChars 0x256D 0x256E 0x2570 0x256F 0x2500 0x2502
  | BorderThick => mkBorderChars 0x250F 0x2513 0x2517 0x251B 0x2501 0x2503
  | BorderNone => mkBorderChars 0 0 0 0 0 0
  end.

(** The drawing surface.  The engine only ever calls two methods of the
    screen it is given, [SetContent] and [ShowCursor], and reads nothing
    back: a render is modelled by the sequence of these calls, in the order
    in which it makes them. *)
Inductive Op :=
| SetContent (x y : Z) (mainc : rune) (combc : list rune) (style : tcellStyle)
| ShowCursor (x y : Z).

(** A [for i := lo; i < hi; i++] loop whose body only draws. *)
Definition forRange (lo hi : Z) (body : Z → list Op) : list Op :=
  concat (body <$> seqZ lo (hi - lo)).

(** A component context, as the layout engine refers to it. *)
Definition ctxRef := nat.

(** The nodes.  A [Node] that is [nil] in the Go code is [None] here.  The
    Markdown node, whose lines come from an external Markdown renderer, is
    not modelled.  [scrollTopState] is the [*State[int]] of the scroll
    box: its context is the context [ctx] of the node (they are set from
    the same value by [ScrollBox], the only constructor). *)
Inductive Node :=
| textNode (content : list rune) (style : Style.t) (wrap : bool)
| boxNode (child : option Node) (style : Style.t)
| vstackNode (children : list (option Node)) (style : Style.t) (gap : Z)
    (justify : Align)
| hstackNode (children : list (option Node)) (style : Style.t) (gap : Z)
    (justify : Align)
| spacerNode
| dividerNode (char : rune) (style : Style.t)
| emptyNode
| whenNode (condition : bool) (node : option Node)
| whenElseNode (condition : bool) (trueNode falseNode : option Node)
| scrollNode (ctx : ctxRef) (child : option Node) (offY contentHeight : Z)
    (autoScroll : bool) (flex : Z) (scrollTopState : option (Hooks.State Z))
| componentNode (ctx : ctxRef) (node : option Node)
| cursorNode.

(** The constructors of the Go API that the examples below use. *)
Definition Text (content : list rune) : Node :=
  textNode content defaultStyle false.
Definition Box (child : option Node) : Node := boxNode child defaultStyle.
Definition VStack (children : list (option Node)) : Node :=
  vstackNode children defaultStyle 0 AlignLeft.
Definition HStack (children : list (option Node)) : Node :=
  hstackNode children defaultStyle 0 AlignLeft.
Definition Spacer : Node := spacerNode.

(** [getFlex], for the node types that implement [flexNode] (they have
    [render], [getFlex] and [getHeight]); [None] for the others, on which
    the type assertion [child.(flexNode)] fails. *)
Fixpoint flexOf (n : Node) : option Z :=
  match n with
  | scrollNode _ _ _ _ _ flex _ => Some (if bool_decide (flex > 0) then flex else 1)
  | componentNode _ node =>
      Some
        match node with
        | None => 0
        | Some inner =>
            match flexOf inner with
            | Some f =>
                (* first test: a [flexNode] with a positive weight; when
                   the weight is not positive, the third test (any type
                   with a [getFlex] method) returns it all the same *)
                if bool_decide (f > 0) then f else f
            | None =>
                match inner with
                | textNode _ style _ => Style.flex style
                | _ => 0
                end
            end
        end
  | vstackNode _ style _ _ => Some (Style.flex style)
  | hstackNode _ style _ _ => Some (Style.flex style)
  | spacerNode => Some 1
  | boxNode _ style => Some (Style.flex style)
  | _ => None
  end.

(** The test [fn, ok := child.(flexNode); ok && fn.getFlex() > 0] of the
    vertical stack, with the weight when it succeeds. *)
Definition flexWeight (n : Node) : option Z :=
  match flexOf n with
  | Some f => if bool_decide (f > 0) then Some f else None
  | None => None
  end.

Section WithRuneWidth.

(** [runewidth.RuneWidth] and [runewidth.StringWidth] come from a library
    outside the repository: both are parameters. *)
Variable RuneWidth : rune → Z.
Variable StringWidth : list rune → Z.

(** The wrapping loop of [measureNodeHeight] for a text node. *)
Fixpoint measureWrap (width : Z) (currentX lines : Z) (content : list rune)
  : Z :=
  match content with
  | [] => lines
  | r :: rest =>
      let charWidth := RuneWidth r in
      let '(currentX, lines) :=
        if bool_decide (currentX + charWidth > width) then (0, lines + 1)
        else (currentX, lines) in
      if bool_decide (r = 10) then measureWrap width 0 (lines + 1) rest
      else measureWrap width (currentX + charWidth) lines rest
  end.

(** [measureNodeHeight] (with [vstackNode.measureHeight] in its place);
    the [default] case is the one of the divider.  Go's [/] on [int] is
    [Z.quot]. *)
Fixpoint measureNodeHeight (n : Node) (width : Z) {struct n} : Z :=
  match n with
  | textNode content _ wrap =>
      if negb wrap || bool_decide (width <= 0) then 1
      else measureWrap width 0 1 content
  | vstackNode children style gap _ =>
      let innerWidth := width - (Style.paddingLeft style + Style.paddingRight style) in
      if bool_decide (innerWidth <= 0)
      then Style.paddingTop style + Style.paddingBottom style
      else
        let '(total, count) :=
          (fix sum (cs : list (option Node)) (total count : Z) : Z * Z :=
             match cs with
             | [] => (total, count)
             | None :: cs' => sum cs' total count
             | Some child :: cs' =>
                 sum cs' (total + measureNodeHeight child innerWidth) (count + 1)
             end) children 0 0 in
        let total := if bool_decide (count > 1) then total + (count - 1) * gap
                     else total in
        total + Style.paddingTop style + Style.paddingBottom style
  | hstackNode children _ _ _ =>
      let len := Z.of_nat (length children) in
      (fix maxOf (cs : list (option Node)) (maxH : Z) : Z :=
         match cs with
         | [] => maxH
         | None :: cs' => maxOf cs' maxH
         | Some child :: cs' =>
             let h := measureNodeHeight child (width ÷ len) in
             maxOf cs' (if bool_decide (h > maxH) then h else maxH)
         end) children 0
  | boxNode child style =>
      if bool_decide (Style.height style > 0) then Style.height style
      else
        let innerHeight :=
          match child with
          | Some c =>
              let innerW := if decide (Style.border style = BorderNone)
                            then width else width - 2 in
              let innerW := innerW - (Style.paddingLeft style + Style.paddingRight style) in
              measureNodeHeight c innerW
          | None => 1
          end in
        if bool_decide (innerHeight = 0) then 0
        else
          let borderSize := if decide (Style.border style = BorderNone)
                            then 0 else 2 in
          innerHeight + borderSize + Style.paddingTop style + Style.paddingBottom style
  | whenNode condition node =>
      match node with
      | Some c => if condition then measureNodeHeight c width else 0
      | None => 0
      end
  | whenElseNode condition trueNode falseNode =>
      if condition then
        match trueNode with Some c => measureNodeHeight c width | None => 0 end
      else
        match falseNode with Some c => measureNodeHeight c width | None => 0 end
  | spacerNode => 0
  | scrollNode _ _ _ _ _ _ _ => 0
  | emptyNode => 0
  | cursorNode => 0
  | componentNode _ node =>
      match node with
      | Some c => measureNodeHeight c width
      | None => 1
      end
  | dividerNode _ _ => 1
  end.

(** What a render changes besides the screen: the rectangle that a
    component node records in its context, and the state cell and refresh
    channel that a scroll box writes through its [State] handle (the
    values of these cells are Go [int]s, compared by [reflect.DeepEqual]
    as integers). *)
Record contextView := mkContextView {
  rect : Rect;
  hooks : Hooks.componentContext Z unit
}.

Record World := mkWorld {
  ctxs : ctxRef → contextView;
  runtime : Hooks.Runtime
}.

Definition setCtx (c : ctxRef) (v : contextView) (wd : World) : World :=
  {| ctxs := fun c' => if decide (c' = c) then v else ctxs wd c';
     runtime := runtime wd |}.

(** [cn.ctx.rect = Rect{...}] *)
Definition setRect (c : ctxRef) (r : Rect) (wd : World) : World :=
  setCtx c {| rect := r; hooks := hooks (ctxs wd c) |} wd.

(** [s.Set(v)] for the handle [s] of a cell of the context [c] *)
Definition stateSet (c : ctxRef) (s : Hooks.State Z) (v : Z) (wd : World)
  : Hooks.State Z * World :=
  let '(s', h') :=
    Hooks.State_Set Z.eqb s v
      {| Hooks.h_ctx := hooks (ctxs wd c); Hooks.h_runtime := runtime wd |} in
  (s', {| ctxs := ctxs (setCtx c {| rect := rect (ctxs wd c);
                                    hooks := Hooks.h_ctx h' |} wd);
          runtime := Hooks.h_runtime h' |}).

(** [type clipScreen struct] (the wrapped screen is the one that receives
    the calls the proxy lets through) *)
Record clipScreen := mkClipScreen {
  viewX : Z; viewY : Z; viewW : Z; viewH : Z; offX : Z; offY : Z
}.

(** [clipScreen.SetContent]: the calls made on the wrapped screen *)
Definition clipScreen_SetContent (s : clipScreen) (x y : Z) (mainc : rune)
  (combc : list rune) (style : tcellStyle) : list Op :=
  let realX := x + offX s in
  let realY := y + offY s in
  if bool_decide (realX >= viewX s) && bool_decide (realX < viewX s + viewW s) &&
     bool_decide (realY >= viewY s) && bool_decide (realY < viewY s + viewH s)
  then [SetContent realX realY mainc combc style]
  else [].

(** [clipScreen.ShowCursor] *)
Definition clipScreen_ShowCursor (s : clipScreen) (x y : Z) : list Op :=
  let realX := x + offX s in
  let realY := y + offY s in
  if bool_decide (realX >= viewX s) && bool_decide (realX < viewX s + viewW s) &&
     bool_decide (realY >= viewY s) && bool_decide (realY < viewY s + viewH s)
  then [ShowCursor realX realY]
  else [].

(** A render that draws on the proxy: each of its calls goes through the
    method of the proxy. *)
Definition clipScreen_call (s : clipScreen) (op : Op) : list Op :=
  match op with
  | SetContent x y mainc combc style => clipScreen_SetContent s x y mainc combc style
  | ShowCursor x y => clipScreen_ShowCursor s x y
  end.

Definition throughClip (s : clipScreen) (ops : list Op) : list Op :=
  concat (clipScreen_call s <$> ops).

(** [textNode.render], the loop without wrapping *)
Fixpoint textLine (x y actualWidth : Z) (style : tcellStyle) (col : Z)
  (content : list rune) : list Op :=
  match content with
  | [] => []
  | r :: rest =>
      let charWidth := RuneWidth r in
      if bool_decide (col + charWidth > x + actualWidth) then []
      else SetContent col y r [] style
             :: textLine x y actualWidth style (col + charWidth) rest
  end.

(** [textNode.render], the loop with wrapping: the line count and the
    cells drawn *)
Fixpoint textWrap (x width height : Z) (style : tcellStyle)
  (currentX currentY lines : Z) (content : list rune) : Z * list Op :=
  match content with
  | [] => (lines, [])
  | r :: rest =>
      let charWidth := RuneWidth r in
      let '(currentX, currentY, lines, stop) :=
        if bool_decide (currentX + charWidth > x + width)
        then (x, currentY + 1, lines + 1, bool_decide (lines + 1 > height))
        else (currentX, currentY, lines, false) in
      if stop then (lines, [])
      else if bool_decide (r = 10) then
        if bool_decide (lines + 1 > height) then (lines + 1, [])
        else textWrap x width height style x (currentY + 1) (lines + 1) rest
      else
        let '(n, ops) :=
          textWrap x width height style (currentX + charWidth) currentY lines rest in
        (n, SetContent currentX currentY r [] style :: ops)
  end.

(** [textNode.render] *)
Definition textRender (content : list rune) (style : Style.t) (wrap : bool)
  (x y width height : Z) : Z * list Op :=
  if bool_decide (height <= 0) then (0, [])
  else
    let actualWidth :=
      if bool_decide (Style.width style > 0) && bool_decide (Style.width style < width)
      then Style.width style else width in
    let tstyle := toTcell style in
    if negb wrap then
      let textWidth := StringWidth content in
      let startX :=
        match Style.align style with
        | AlignCenter =>
            if bool_decide (textWidth < actualWidth)
            then x + (actualWidth - textWidth) ÷ 2 else x
        | AlignRight =>
            if bool_decide (textWidth < actualWidth)
            then x + actualWidth - textWidth else x
        | AlignLeft => x
        end in
      (1, textLine x y actualWidth tstyle startX content)
    else textWrap x width height tstyle x y 1 content.

(** [boxNode.drawBackground] *)
Definition drawBackground (style : Style.t) (x y width height : Z) : list Op :=
  let bgStyle := Background (colorToTcell (Style.bg style)) StyleDefault in
  forRange y (y + height) (fun row =>
    forRange x (x + width) (fun col => [SetContent col row 32 [] bgStyle])).

(** [boxNode.renderBorder] *)
Definition renderBorder (style : Style.t) (x y width height : Z) : list Op :=
  let chars := getBorderChars (Style.border style) in
  let st := Foreground (colorToTcell (Style.borderColor style)) StyleDefault in
  [ SetContent x y (TopLeft chars) [] st;
    SetContent (x + width - 1) y (TopRight chars) [] st;
    SetContent x (y + height - 1) (BottomLeft chars) [] st;
    SetContent (x + width - 1) (y + height - 1) (BottomRight chars) [] st ]
  ++ forRange (x + 1) (x + width - 1) (fun col =>
       [ SetContent col y (Horizontal chars) [] st;
         SetContent col (y + height - 1) (Horizontal chars) [] st ])
  ++ forRange (y + 1) (y + height - 1) (fun row =>
       [ SetContent x row (Vertical chars) [] st;
         SetContent (x + width - 1) row (Vertical chars) [] st ]).

(** [dividerNode.render] *)
Definition dividerRender (char : rune) (style : Style.t)
  (x y width height : Z) : Z * list Op :=
  if bool_decide (height <= 0) || bool_decide (width <= 0) then (0, [])
  else (1, forRange 0 width (fun i => [SetContent (x + i) y char [] (toTcell style)])).

(** The children of a stack that are not [nil]. *)
Definition nonNil (children : list (option Node)) : list Node :=
  omap id children.

(** [hstackNode.measureWidth] *)
Fixpoint measureWidth (n : Node) : Z :=
  match n with
  | textNode content style _ =>
      if bool_decide (Style.width style > 0) then Style.width style
      else StringWidth content
  | boxNode child style =>
      if bool_decide (Style.width style > 0) then Style.width style
      else
        let childWidth := match child with
                          | Some c => measureWidth c
                          | None => 0
                          end in
        let borderSize := if decide (Style.border style = BorderNone)
                          then 0 else 1 in
        childWidth + Style.paddingLeft style + Style.paddingRight style + borderSize * 2
  | spacerNode => 0
  | cursorNode => 0
  | hstackNode children _ gap _ =>
      let '(total, count) :=
        (fix sum (cs : list (option Node)) (total count : Z) : Z * Z :=
           match cs with
           | [] => (total, count)
           | None :: cs' => sum cs' total count
           | Some child :: cs' => sum cs' (total + measureWidth child) (count + 1)
           end) children 0 0 in
      if bool_decide (count > 1) then total + (count - 1) * gap else total
  | vstackNode children _ _ _ =>
      (fix maxOf (cs : list (option Node)) (maxW : Z) : Z :=
         match cs with
         | [] => maxW
         | None :: cs' => maxOf cs' maxW
         | Some child :: cs' =>
             let w := measureWidth child in
             maxOf cs' (if bool_decide (w > maxW) then w else maxW)
         end) children 0
  | componentNode _ node =>
      match node with
      | Some c => measureWidth c
      | None => 10
      end
  | whenNode condition node =>
      match node with
      | Some c => if condition then measureWidth c else 0
      | None => 0
      end
  | whenElseNode condition trueNode falseNode =>
      if condition then
        match trueNode with Some c => measureWidth c | None => 0 end
      else
        match falseNode with Some c => measureWidth c | None => 0 end
  | emptyNode => 0
  | dividerNode _ _ => 10
  | scrollNode _ _ _ _ _ _ _ => 10
  end.

(** [hstackNode.getChildFlex] *)
Fixpoint getChildFlex (n : Node) : Z :=
  match n with
  | textNode _ style _ => Style.flex style
  | boxNode _ style => Style.flex style
  | spacerNode => 1
  | vstackNode _ style _ _ => Style.flex style
  | hstackNode _ style _ _ => Style.flex style
  | componentNode _ node =>
      match node with
      | Some c => getChildFlex c
      | None => 0
      end
  | _ => 0
  end.

(** The two stacks call [render] on their children.  Their bodies are
    written once, for any function [rend] in the place of the method
    [render] of the children and any type [T] of the state it threads; the
    renderer below is their instance at [render] itself. *)
Section Stacks.

Variable T : Type.
Variable rend : Node → Z → Z → Z → Z → T → Z * list Op * T.

(** [vstackNode.render], first pass: the fixed height and the total
    weight *)
Fixpoint vstackFirstPass (width : Z) (children : list (option Node))
  (fixedHeight totalFlex : Z) : Z * Z :=
  match children with
  | [] => (fixedHeight, totalFlex)
  | None :: cs => vstackFirstPass width cs fixedHeight totalFlex
  | Some child :: cs =>
      match flexWeight child with
      | Some f => vstackFirstPass width cs fixedHeight (totalFlex + f)
      | None =>
          vstackFirstPass width cs
            (fixedHeight + measureNodeHeight child width) totalFlex
      end
  end.

(** [vstackNode.render], the height the loop computes for a child at
    [currentY] *)
Definition vstackChildHeight (y width height flexUnitHeight : Z)
  (child : Node) (currentY : Z) : Z :=
  let childHeight := measureNodeHeight child width in
  let childHeight := match flexWeight child with
                     | Some f => flexUnitHeight * f
                     | None => childHeight
                     end in
  let remainingH := (y + height) - currentY in
  if bool_decide (childHeight > remainingH) then remainingH else childHeight.

(** [vstackNode.render], the loop over the children; [i] counts the
    children that are not [nil], [len] is their number *)
Fixpoint vstackLoop (x y width height gap flexUnitHeight len : Z)
  (children : list (option Node)) (i currentY totalUsedHeight : Z) (t : T)
  : Z * list Op * T :=
  match children with
  | [] => (totalUsedHeight, [], t)
  | None :: cs =>
      vstackLoop x y width height gap flexUnitHeight len cs
        i currentY totalUsedHeight t
  | Some child :: cs =>
      if bool_decide (currentY >= y + height) then (totalUsedHeight, [], t)
      else
        let childHeight :=
          vstackChildHeight y width height flexUnitHeight child currentY in
        let '(usedHeight, ops, t) := rend child x currentY width childHeight t in
        let usedHeight :=
          if bool_decide (usedHeight = 0) && bool_decide (childHeight > 0)
          then childHeight else usedHeight in
        let currentY := currentY + usedHeight in
        let totalUsedHeight := totalUsedHeight + usedHeight in
        let '(currentY, totalUsedHeight) :=
          if bool_decide (i < len - 1)
          then (currentY + gap, totalUsedHeight + gap)
          else (currentY, totalUsedHeight) in
        let '(total, ops', t) :=
          vstackLoop x y width height gap flexUnitHeight len cs
            (i + 1) currentY totalUsedHeight t in
        (total, ops ++ ops', t)
  end.

(** [vstackNode.render], what the first pass yields: the fixed height
    (gaps included), the total weight, the remaining height and the height
    of one flex unit, for the inner [width] and [height] *)
Record vstackPlan := mkVstackPlan {
  fixedHeight : Z; totalFlex : Z; remainingHeight : Z; flexUnitHeight : Z
}.

Definition vstackPlanOf (children : list (option Node)) (gap width height : Z)
  : vstackPlan :=
  let len := Z.of_nat (length (nonNil children)) in
  let numGaps := if bool_decide (len - 1 < 0) then 0 else len - 1 in
  let '(fixedHeight, totalFlex) :=
    vstackFirstPass width children (numGaps * gap) 0 in
  let remainingHeight := height - fixedHeight in
  let remainingHeight := if bool_decide (remainingHeight < 0) then 0
                         else remainingHeight in
  let flexUnitHeight := if bool_decide (totalFlex > 0)
                        then remainingHeight ÷ totalFlex else 0 in
  {| fixedHeight := fixedHeight; totalFlex := totalFlex;
     remainingHeight := remainingHeight; flexUnitHeight := flexUnitHeight |}.

(** [vstackNode.render] *)
Definition vstackRender (children : list (option Node)) (style : Style.t)
  (gap : Z) (justify : Align) (x y width height : Z) (t : T)
  : Z * list Op * T :=
  if bool_decide (length children = 0%nat) then (0, [], t)
  else
    let x := x + Style.paddingLeft style in
    let y := y + Style.paddingTop style in
    let width := width - (Style.paddingLeft style + Style.paddingRight style) in
    let height := height - (Style.paddingTop style + Style.paddingBottom style) in
    if bool_decide (width <= 0) || bool_decide (height <= 0) then (0, [], t)
    else if bool_decide (length (nonNil children) = 0%nat) then (0, [], t)
    else
      let plan := vstackPlanOf children gap width height in
      let totalContentHeight :=
        if bool_decide (totalFlex plan > 0)
        then fixedHeight plan + remainingHeight plan else fixedHeight plan in
      let currentY :=
        match justify with
        | AlignCenter =>
            if bool_decide (totalContentHeight < height)
            then y + (height - totalContentHeight) ÷ 2 else y
        | AlignRight =>
            if bool_decide (totalContentHeight < height)
            then y + (height - totalContentHeight) else y
        | AlignLeft => y
        end in
      vstackLoop x y width height gap (flexUnitHeight plan)
        (Z.of_nat (length (nonNil children))) children 0 currentY 0 t.

(** [hstackNode.render], first pass *)
Fixpoint hstackFirstPass (children : list (option Node))
  (fixedWidth totalFlex : Z) : Z * Z :=
  match children with
  | [] => (fixedWidth, totalFlex)
  | None :: cs => hstackFirstPass cs fixedWidth totalFlex
  | Some child :: cs =>
      let childWidth := measureWidth child in
      let flex := getChildFlex child in
      if bool_decide (flex > 0)
      then hstackFirstPass cs fixedWidth (totalFlex + flex)
      else hstackFirstPass cs (fixedWidth + childWidth) totalFlex
  end.

(** [hstackNode.render], the loop over the children *)
Fixpoint hstackLoop (x y width height gap flexUnitWidth len : Z)
  (children : list (option Node)) (i currentX maxHeight : Z) (t : T)
  : Z * list Op * T :=
  match children with
  | [] => (maxHeight, [], t)
  | None :: cs =>
      hstackLoop x y width height gap flexUnitWidth len cs
        i currentX maxHeight t
  | Some child :: cs =>
      if bool_decide (currentX >= x + width) then (maxHeight, [], t)
      else
        let childWidth := measureWidth child in
        let flex := getChildFlex child in
        let childWidth := if bool_decide (flex > 0) then flexUnitWidth * flex
                          else childWidth in
        let remainingW := (x + width) - currentX in
        let childWidth := if bool_decide (childWidth > remainingW)
                          then remainingW else childWidth in
        let childRenderHeight := measureNodeHeight child childWidth in
        let childRenderHeight :=
          if bool_decide (childRenderHeight > height) then height
          else childRenderHeight in
        let childRenderHeight :=
          if bool_decide (childRenderHeight = 0) && bool_decide (height > 0)
          then match flexOf child with
               | Some _ => height
               | None => childRenderHeight
               end
          else childRenderHeight in
        let '(usedHeight, ops, t) :=
          rend child currentX y childWidth childRenderHeight t in
        let maxHeight := if bool_decide (usedHeight > maxHeight)
                         then usedHeight else maxHeight in
        let currentX := currentX + childWidth in
        let currentX := if bool_decide (i < len - 1) then currentX + gap
                        else currentX in
        let '(total, ops', t) :=
          hstackLoop x y width height gap flexUnitWidth len cs
            (i + 1) currentX maxHeight t in
        (total, ops ++ ops', t)
  end.

(** [hstackNode.render] *)
Definition hstackRender (children : list (option Node)) (style : Style.t)
  (gap : Z) (justify : Align) (x y width height : Z) (t : T)
  : Z * list Op * T :=
  if bool_decide (length children = 0%nat) then (0, [], t)
  else if bool_decide (length (nonNil children) = 0%nat) then (0, [], t)
  else
    let len := Z.of_nat (length (nonNil children)) in
    let numGaps := if bool_decide (len - 1 < 0) then 0 else len - 1 in
    let '(fixedWidth, totalFlex) :=
      hstackFirstPass children (numGaps * gap) 0 in
    let remainingWidth := width - fixedWidth in
    let remainingWidth := if bool_decide (remainingWidth < 0) then 0
                          else remainingWidth in
    let flexUnitWidth := if bool_decide (totalFlex > 0)
                         then remainingWidth ÷ totalFlex else 0 in
    let totalContentWidth :=
      if bool_decide (totalFlex > 0) then fixedWidth + remainingWidth
      else fixedWidth in
    let currentX :=
      match justify with
      | AlignCenter =>
          if bool_decide (totalContentWidth < width)
          then x + (width - totalContentWidth) ÷ 2 else x
      | AlignRight =>
          if bool_decide (totalContentWidth < width)
          then x + (width - totalContentWidth) else x
      | AlignLeft => x
      end in
    let '(maxHeight, ops, t) :=
      hstackLoop x y width height gap flexUnitWidth len children 0 currentX 0 t in
    (if bool_decide (maxHeight = 0) then 1 else maxHeight, ops, t).

End Stacks.

(** [boxNode.render], for the render function [rend] of the child *)
Definition boxRender (rend : Node → Z → Z → Z → Z → World → Z * list Op * World)
  (child : option Node) (style : Style.t) (x y width height : Z) (wd : World)
  : Z * list Op * World :=
  if bool_decide (height <= 0) || bool_decide (width <= 0) then (0, [], wd)
  else
    let actualWidth :=
      if bool_decide (Style.width style > 0) && bool_decide (Style.width style < width)
      then Style.width style else width in
    let actualHeight :=
      if bool_decide (Style.height style > 0) && bool_decide (Style.height style < height)
      then Style.height style else height in
    let borderSize := if decide (Style.border style = BorderNone) then 0 else 1 in
    let maxContentWidth :=
      actualWidth - borderSize * 2 - Style.paddingLeft style - Style.paddingRight style in
    let maxContentHeight :=
      actualHeight - borderSize * 2 - Style.paddingTop style - Style.paddingBottom style in
    let background :=
      if decide (Style.bg style = Default) then []
      else drawBackground style x y actualWidth actualHeight in
    let frame :=
      if decide (Style.border style = BorderNone) then []
      else renderBorder style x y actualWidth actualHeight in
    if bool_decide (maxContentWidth <= 0) || bool_decide (maxContentHeight <= 0)
    then (actualHeight, background ++ frame, wd)
    else
      let childHeight := match child with
                         | Some c => measureNodeHeight c maxContentWidth
                         | None => 0
                         end in
      let contentY := y + borderSize + Style.paddingTop style in
      let contentY :=
        if bool_decide (Style.height style > 0) || bool_decide (height > childHeight)
        then
          let availableH := maxContentHeight in
          if bool_decide (childHeight < availableH) then
            match Style.valign style with
            | AlignCenter => contentY + (availableH - childHeight) ÷ 2
            | AlignRight => contentY + (availableH - childHeight)
            | AlignLeft => contentY
            end
          else contentY
        else contentY in
      let contentX := x + borderSize + Style.paddingLeft style in
      let '(usedHeight, ops, wd) :=
        match child with
        | Some c => rend c contentX contentY maxContentWidth maxContentHeight wd
        | None => (0, [], wd)
        end in
      (if bool_decide (Style.height style > 0) then Style.height style
       else usedHeight + borderSize * 2 + Style.paddingTop style + Style.paddingBottom style,
       background ++ frame ++ ops, wd).

(** [scrollNode.render], step 2: the offset the node has after it, and the
    world after the write through the state handle *)
Definition scrollSync (ctx : ctxRef) (offY contentHeight height : Z)
  (autoScroll : bool) (scrollTopState : option (Hooks.State Z)) (wd : World)
  : Z * World :=
  if autoScroll && bool_decide (contentHeight > height) then
    let offY := contentHeight - height in
    (offY,
     match scrollTopState with
     | Some s => (stateSet ctx s offY wd).2
     | None => wd
     end)
  else (offY, wd).

(** [scrollNode.render], steps 3 and 4: the track and the thumb of the
    scroll bar, drawn on the screen itself *)
Definition scrollBar (x y width height offY contentHeight : Z) : list Op :=
  let scrollbarX := x + width - 1 in
  forRange 0 height (fun i =>
    [SetContent scrollbarX (y + i) 0x2502 [] (Foreground ColorGray StyleDefault)])
  ++
  if bool_decide (contentHeight > height) then
    let thumbHeight := height * height ÷ contentHeight in
    let thumbHeight := if bool_decide (thumbHeight < 1) then 1 else thumbHeight in
    let thumbPos := offY * height ÷ contentHeight in
    let thumbPos := if bool_decide (thumbPos + thumbHeight > height)
                    then height - thumbHeight else thumbPos in
    forRange 0 thumbHeight (fun i =>
      [SetContent scrollbarX (y + thumbPos + i) 0x2503 []
         (Foreground (colorToTcell Cyan) StyleDefault)])
  else [].

(** The proxy that [scrollNode.render] builds *)
Definition scrollProxy (x y width height offY : Z) : clipScreen :=
  {| viewX := x; viewY := y; viewW := width - 1; viewH := height;
     offX := 0; offY := - offY |}.

(** [render], the method of every node type: the height used, the calls
    made on the screen, and the world after the render *)
Fixpoint render (n : Node) (x y width height : Z) (wd : World) {struct n}
  : Z * list Op * World :=
  match n with
  | textNode content style wrap =>
      let '(used, ops) := textRender content style wrap x y width height in
      (used, ops, wd)
  | boxNode child style => boxRender render child style x y width height wd
  | vstackNode children style gap justify =>
      vstackRender World render children style gap justify x y width height wd
  | hstackNode children style gap justify =>
      hstackRender World render children style gap justify x y width height wd
  | spacerNode => (height, [], wd)
  | dividerNode char style =>
      let '(used, ops) := dividerRender char style x y width height in
      (used, ops, wd)
  | emptyNode => (0, [], wd)
  | whenNode condition node =>
      match node with
      | Some c => if condition then render c x y width height wd else (0, [], wd)
      | None => (0, [], wd)
      end
  | whenElseNode condition trueNode falseNode =>
      if condition then
        match trueNode with
        | Some c => render c x y width height wd
        | None => (0, [], wd)
        end
      else
        match falseNode with
        | Some c => render c x y width height wd
        | None => (0, [], wd)
        end
  | scrollNode ctx child offY _ autoScroll _ scrollTopState =>
      match child with
      | None => (0, [], wd)
      | Some c =>
          let contentHeight := measureNodeHeight c (width - 1) in
          let '(offY, wd) :=
            scrollSync ctx offY contentHeight height autoScroll scrollTopState wd in
          let proxy := scrollProxy x y width height offY in
          let '(_, ops, wd) := render c x y (width - 1) 1000 wd in
          (height,
           throughClip proxy ops ++ scrollBar x y width height offY contentHeight,
           wd)
      end
  | componentNode ctx node =>
      let '(usedHeight, ops, wd) :=
        match node with
        | Some c => render c x y width height wd
        | None => (0, [], wd)
        end in
      (usedHeight, ops, setRect ctx (mkRect x y width usedHeight) wd)
  | cursorNode => (0, [ShowCursor x y], wd)
  end.

(** The calls a stack makes on its children, observed: [recording rend]
    behaves as [rend] and notes, for each call, the child, the row [y] and
    the height it is granted. *)
Definition recording {T : Type}
  (rend : Node → Z → Z → Z → Z → T → Z * list Op * T)
  : Node → Z → Z → Z → Z → T * list (Node * Z * Z)
    → Z * list Op * (T * list (Node * Z * Z)) :=
  fun n x y width height '(t, log) =>
    let '(used, ops, t) := rend n x y width height t in
    (used, ops, (t, log ++ [(n, y, height)])).

(** The children a vertical stack renders, with the row and the height
    granted to each, in the order of the calls. *)
Definition vstackCalls (children : list (option Node)) (style : Style.t)
  (gap : Z) (justify : Align) (x y width height : Z) (wd : World)
  : list (Node * Z * Z) :=
  (vstackRender _ (recording render) children style gap justify
     x y width height (wd, [])).2.2.

End WithRuneWidth.

(** Values for the examples: a width function that gives the control
    characters no column, the CJK unified ideographs two and every other
    rune one (the value [runewidth.RuneWidth] gives to all printable ASCII
    runes), the width of a string as the sum of the widths of its runes,
    and a world with no rectangle recorded and no refresh pending. *)
Definition exampleRuneWidth (r : rune) : Z :=
  if bool_decide (r < 32) then 0
  else if bool_decide (0x4E00 <= r) && bool_decide (r <= 0x9FFF) then 2
  else 1.

Definition exampleStringWidth (s : list rune) : Z :=
  foldr (fun r acc => exampleRuneWidth r + acc) 0 s.

Definition exampleWorld : World :=
  {| ctxs := fun _ => {| rect := mkRect 0 0 0 0;
                         hooks := Hooks.newComponentContext Z unit true |};
     runtime := {| Hooks.refreshChan := false |} |}.

(** A scroll box as [TailBox] builds it: auto-tail on, the handle of the
    cell [scrollTop] of its context; and a world in which that cell holds
    the value of the handle. *)
Definition exampleHandle : Hooks.State Z :=
  {| Hooks.Val := 0; Hooks.key := "scrollTop" |}.

Definition exampleScrollWorld : World :=
  {| ctxs := fun _ =>
       {| rect := mkRect 0 0 0 0;
          hooks := Hooks.setState "scrollTop" 0
                     (Hooks.newComponentContext Z unit true) |};
     runtime := {| Hooks.refreshChan := false |} |}.

(** Twenty lines of text, one row each: [VStack(Text("a") x 20)]. *)
Definition twentyLines : Node :=
  VStack (replicate 20 (Some (Text [97]))).

Definition exampleTailBox : Node :=
  scrollNode 0%nat (Some twentyLines) 0 0 true 0 (Some exampleHandle).


End Layout.

(* ===================================================================== *)
(** ** context.go: the dispatch of pointer events *)
(* ===================================================================== *)

Module Dispatch.

Local Open Scope Z_scope.

(** [type MouseEventType int], [type MouseButton int], [type MouseEvent
    struct] *)
Inductive MouseEventType :=
  MouseEventPress | MouseEventRelease | MouseEventClick | MouseEventMove
| MouseEventScrollUp | MouseEventScrollDown.

Inductive MouseButton :=
  MouseButtonNone | MouseButtonLeft | MouseButtonMiddle | MouseButtonRight.

Record MouseEvent := mkMouseEvent {
  X : Z; Y : Z; Button : MouseButton; Type_ : MouseEventType
}.

(** [evIn.Type = MouseEventMove] on the copy [evIn] of the event *)
Definition setTypeMove (ev : MouseEvent) : MouseEvent :=
  {| X := X ev; Y := Y ev; Button := Button ev; Type_ := MouseEventMove |}.

Section WithHandlers.

(** A handler [func(MouseEvent)] is a closure of the application: the
    dispatch only calls it.  A dispatch is modelled by the calls it makes,
    in order, each with the event it passes. *)
Variable Handler : Type.

(** [type componentContext struct]: the fields the dispatch reads.
    [children] is a Go map; the list holds its entries in the order in
    which the [range] loop of this dispatch visits them. *)
Inductive componentContext := mkContext {
  key : string;
  rect : Layout.Rect;
  mouseHandler : option Handler;
  children : list componentContext
}.

(** [componentContext.dispatchMouseEvent] *)
Fixpoint dispatchMouseEvent (c : componentContext) (ev : MouseEvent)
  : list (Handler * MouseEvent) :=
  let inRect := Layout.Contains (rect c) (X ev) (Y ev) in
  let own :=
    match mouseHandler c with
    | Some handler =>
        let evIn := if negb inRect then setTypeMove ev else ev in
        [(handler, evIn)]
    | None => []
    end in
  own ++ concat (map (fun child => dispatchMouseEvent child ev) (children c)).

(** The records of a tree, the root first. *)
Fixpoint contexts (c : componentContext) : list componentContext :=
  c :: concat (map contexts (children c)).

(** The call that the dispatch of [ev] makes for one record, if any. *)
Definition delivery (ev : MouseEvent) (c : componentContext)
  : option (Handler * MouseEvent) :=
  match mouseHandler c with
  | Some handler =>
      Some (handler,
            if Layout.Contains (rect c) (X ev) (Y ev) then ev
            else setTypeMove ev)
  | None => None
  end.

End WithHandlers.

Arguments mkContext {_}.
Arguments key {_}.
Arguments rect {_}.
Arguments mouseHandler {_}.
Arguments children {_}.
Arguments dispatchMouseEvent {_}.
Arguments contexts {_}.
Arguments delivery {_}.

(** A tree for the examples: a root without handler and two children with
    the handlers [1] and [2], of which the first one has the rectangle
    [(0, 0, 10, 5)] and the second one [(0, 5, 10, 5)]. *)
Definition exampleTree : componentContext nat :=
  mkContext "root" (Layout.mkRect 0 0 80 24) None
    [ mkContext "a" (Layout.mkRect 0 0 10 5) (Some 1%nat) [];
      mkContext "b" (Layout.mkRect 0 5 10 5) (Some 2%nat) [] ].

End Dispatch.

(* ===================================================================== *)
(** ** runtime.go: the render pass of the main loop *)
(* ===================================================================== *)

Module RuntimeLoop.
Import Layout.

Local Open Scope Z_scope.

(** The code points of an ASCII string literal. *)
Definition runes (s : string) : list rune :=
  (fun a => Z.of_nat (Ascii.nat_of_ascii a)) <$> String.list_ascii_of_string s.

(** The screen of the terminal library, as the runtime uses it: a size, the
    cells set since the last [Clear], the cursor, and what the last [Show]
    put on the terminal.  [SetContent] outside of the screen is ignored by
    the library. *)
Record Screen := mkScreen {
  size : Z * Z;
  cells : gmap (Z * Z) (rune * tcellStyle);
  cursor : option (Z * Z);
  shown : gmap (Z * Z) (rune * tcellStyle)
}.

Definition Screen_Clear (s : Screen) : Screen :=
  {| size := size s; cells := ∅; cursor := cursor s; shown := shown s |}.

Definition setCell (sz : Z * Z) (x y : Z) (mainc : rune) (style : tcellStyle)
  (m : gmap (Z * Z) (rune * tcellStyle)) : gmap (Z * Z) (rune * tcellStyle) :=
  if bool_decide (0 <= x) && bool_decide (x < sz.1) &&
     bool_decide (0 <= y) && bool_decide (y < sz.2)
  then <[(x, y) := (mainc, style)]> m else m.

Definition Screen_SetContent (x y : Z) (mainc : rune) (style : tcellStyle)
  (s : Screen) : Screen :=
  {| size := size s; cells := setCell (size s) x y mainc style (cells s);
     cursor := cursor s; shown := shown s |}.

Definition Screen_ShowCursor (x y : Z) (s : Screen) : Screen :=
  {| size := size s; cells := cells s; cursor := Some (x, y);
     shown := shown s |}.

Definition Screen_HideCursor (s : Screen) : Screen :=
  {| size := size s; cells := cells s; cursor := None; shown := shown s |}.

Definition Screen_Show (s : Screen) : Screen :=
  {| size := size s; cells := cells s; cursor := cursor s;
     shown := cells s |}.

(** A resize of the terminal, between two passes. *)
Definition Screen_Resize (w h : Z) (s : Screen) : Screen :=
  {| size := (w, h); cells := cells s; cursor := cursor s; shown := shown s |}.

(** [Style.Bold(true)], [Style.Underline(true)], [Style.Dim(true)] of the
    terminal library *)
Definition tBold (s : tcellStyle) : tcellStyle :=
  {| t_fg := t_fg s; t_bg := t_bg s; t_bold := true; t_italic := t_italic s;
     t_underline := t_underline s; t_dim := t_dim s; t_blink := t_blink s |}.

Definition tUnderline (s : tcellStyle) : tcellStyle :=
  {| t_fg := t_fg s; t_bg := t_bg s; t_bold := t_bold s; t_italic := t_italic s;
     t_underline := true; t_dim := t_dim s; t_blink := t_blink s |}.

Definition tDim (s : tcellStyle) : tcellStyle :=
  {| t_fg := t_fg s; t_bg := t_bg s; t_bold := t_bold s; t_italic := t_italic s;
     t_underline := t_underline s; t_dim := true; t_blink := t_blink s |}.

(** The number of bytes of a rune in a Go string (UTF-8): the index [i] of
    [for i, ru := range text] advances by it. *)
Definition utf8Len (r : rune) : Z :=
  if bool_decide (r < 0x80) then 1
  else if bool_decide (r < 0x800) then 2
  else if bool_decide (r < 0x10000) then 3
  else 4.

(** [Runtime.drawText]: the cells it sets *)
Fixpoint drawTextFrom (x y : Z) (style : tcellStyle) (i : Z)
  (text : list rune) : list Op :=
  match text with
  | [] => []
  | ru :: rest =>
      SetContent (x + i) y ru [] style
        :: drawTextFrom x y style (i + utf8Len ru) rest
  end.

Definition drawText (x y : Z) (text : list rune) (style : tcellStyle)
  : list Op :=
  drawTextFrom x y style 0 text.

(** [len(text)]: the number of bytes *)
Definition byteLen (text : list rune) : Z :=
  foldr (fun r n => utf8Len r + n) 0 text.

(** [splitLines] *)
Fixpoint splitLinesFrom (cur : list rune) (s : list rune)
  : list (list rune) :=
  match s with
  | [] => match cur with [] => [] | _ => [cur] end
  | r :: rest =>
      if bool_decide (r = 10) then cur :: splitLinesFrom [] rest
      else splitLinesFrom (cur ++ [r]) rest
  end.

Definition splitLines (s : list rune) : list (list rune) :=
  splitLinesFrom [] s.

(** The loop over the lines of the stack trace in [drawErrorScreen] *)
Fixpoint drawStackLines (h : Z) (style : tcellStyle) (i : Z)
  (lines : list (list rune)) : list Op :=
  match lines with
  | [] => []
  | line :: rest =>
      if bool_decide (i > h - 10) then []
      else drawText 2 (7 + i) line style
             ++ drawStackLines h style (i + 1) rest
  end.

(** A call that sets no cell or sets one on a red background. *)
Definition onRed (op : Op) : Prop :=
  match op with
  | SetContent _ _ _ _ style => t_bg style = ColorRed
  | ShowCursor _ _ => True
  end.

Section WithApp.

(** The value of a panic ([any], not [nil]) and its text under the verb
    [%v] of [fmt]; the state of the application (the identity records and
    what the components keep in them). *)
Variable Value : Type.
Variable format : Value → list rune.
Variable App : Type.

(** What [r.root(r.rootContext)] followed by [node.render(renderScreen,
    0, 0, width, height)] does: code of the application and of the layout
    engine, which may panic.  The outcome has the value of the panic and
    the stack trace that [debug.Stack] then returns, if there is one; and,
    up to the panic or to the end, the calls made on the screen proxy, the
    focus manager with the registrations made, and the state of the
    application. *)
Record Outcome := mkOutcome {
  o_panic : option (Value * list rune);
  o_ops : list Op;
  o_focus : Focus.FocusManager;
  o_app : App
}.

Variable rootAndRender : Z * Z → Focus.FocusManager → App → Outcome.

(** [type Runtime struct] (the channels are not part of a render pass) *)
Record Runtime := mkRuntime {
  screen : Screen;
  focusManager : Focus.FocusManager;
  cursorX : Z;
  cursorY : Z;
  showCursor : bool;
  lastPanic : option Value;
  panicStack : list rune;
  app : App
}.

Definition withScreen (s : Screen) (r : Runtime) : Runtime :=
  {| screen := s; focusManager := focusManager r; cursorX := cursorX r;
     cursorY := cursorY r; showCursor := showCursor r;
     lastPanic := lastPanic r; panicStack := panicStack r; app := app r |}.

(** [Runtime.setCursor] *)
Definition setCursor (x y : Z) (r : Runtime) : Runtime :=
  {| screen := screen r; focusManager := focusManager r; cursorX := x;
     cursorY := y; showCursor := true;
     lastPanic := lastPanic r; panicStack := panicStack r; app := app r |}.

(** A call on [renderScreenProxy]: [ShowCursor] is intercepted, the rest
    goes to the screen. *)
Definition proxyCall (r : Runtime) (op : Op) : Runtime :=
  match op with
  | SetContent x y mainc _ style =>
      withScreen (Screen_SetContent x y mainc style (screen r)) r
  | ShowCursor x y => setCursor x y r
  end.

(** A call on the screen itself. *)
Definition screenCall (s : Screen) (op : Op) : Screen :=
  match op with
  | SetContent x y mainc _ style => Screen_SetContent x y mainc style s
  | ShowCursor x y => Screen_ShowCursor x y s
  end.

(** [Runtime.drawErrorScreen]: the calls it makes on a screen of [w]
    columns and [h] rows *)
Definition errorStyle : tcellStyle :=
  Foreground ColorWhite (Background ColorRed StyleDefault).

Definition errorScreenOps (w h : Z) (lastPanic : option Value)
  (panicStack : list rune) : list Op :=
  let style := errorStyle in
  let title := runes "  REGO RUNTIME PANIC  " in
  let msg := runes "Error: " ++ match lastPanic with
                                | Some v => format v
                                | None => runes "<nil>"
                                end in
  let footer := runes "Press Ctrl+C to quit" in
  forRange 0 h (fun y => forRange 0 w (fun x => [SetContent x y 32 [] style]))
  ++ drawText ((w - byteLen title) ÷ 2) 2 title (tBold style)
  ++ drawText 2 4 msg style
  ++ drawText 2 6 (runes "Stack Trace:") (tUnderline style)
  ++ drawStackLines h style 0 (splitLines panicStack)
  ++ drawText ((w - byteLen footer) ÷ 2) (h - 2) footer (tDim style).

Definition drawErrorScreen (r : Runtime) : Runtime :=
  withScreen
    (fold_left screenCall
       (errorScreenOps (size (screen r)).1 (size (screen r)).2
          (lastPanic r) (panicStack r))
       (screen r))
    r.

(** [Runtime.render].  The deferred function that calls [recover] runs
    when the body panics: the pass then ends there, with the error screen
    shown, and [render] returns to the loop. *)
Definition render (r : Runtime) : Runtime :=
  let r := withScreen (Screen_Clear (screen r)) r in
  match lastPanic r with
  | Some _ =>
      let r := drawErrorScreen r in
      withScreen (Screen_Show (screen r)) r
  | None =>
      let o := rootAndRender (size (screen r)) (Focus.Reset (focusManager r))
                 (app r) in
      let r := {| screen := screen r; focusManager := o_focus o;
                  cursorX := cursorX r; cursorY := cursorY r;
                  showCursor := false;
                  lastPanic := lastPanic r; panicStack := panicStack r;
                  app := o_app o |} in
      let r := fold_left proxyCall (o_ops o) r in
      match o_panic o with
      | Some (err, stack) =>
          let r := {| screen := screen r; focusManager := focusManager r;
                      cursorX := cursorX r; cursorY := cursorY r;
                      showCursor := showCursor r;
                      lastPanic := Some err; panicStack := stack;
                      app := app r |} in
          let r := withScreen (Screen_Clear (screen r)) r in
          let r := drawErrorScreen r in
          withScreen (Screen_Show (screen r)) r
      | None =>
          let r := if showCursor r
                   then withScreen (Screen_ShowCursor (cursorX r) (cursorY r)
                                      (screen r)) r
                   else withScreen (Screen_HideCursor (screen r)) r in
          withScreen (Screen_Show (screen r)) r
      end
  end.

(** What happens in the loop of [Run] between two passes, besides [quit]:
    an event that [handleEvent] dispatches to the handlers of the
    application, a [Tab] or [Shift+Tab] that moves the focus, a resize of
    the terminal; and a pass itself. *)
Inductive Step :=
| StepRender
| StepHandlers (handlers : App → App)
| StepTab (shift : bool)
| StepResize (w h : Z).

Definition step (r : Runtime) (st : Step) : Runtime :=
  match st with
  | StepRender => render r
  | StepHandlers handlers =>
      {| screen := screen r; focusManager := focusManager r;
         cursorX := cursorX r; cursorY := cursorY r;
         showCursor := showCursor r; lastPanic := lastPanic r;
         panicStack := panicStack r; app := handlers (app r) |}
  | StepTab shift =>
      {| screen := screen r;
         focusManager := if shift then Focus.Prev (focusManager r)
                         else Focus.Next (focusManager r);
         cursorX := cursorX r; cursorY := cursorY r;
         showCursor := showCursor r; lastPanic := lastPanic r;
         panicStack := panicStack r; app := app r |}
  | StepResize w h => withScreen (Screen_Resize w h (screen r)) r
  end.

Definition run (steps : list Step) (r : Runtime) : Runtime :=
  fold_left step steps r.

(** The error report on a screen of the size [sz]: what the terminal
    shows after [drawErrorScreen] on a cleared screen. *)
Definition errorReport (sz : Z * Z) (v : Value) (stack : list rune)
  : gmap (Z * Z) (rune * tcellStyle) :=
  cells (fold_left screenCall (errorScreenOps sz.1 sz.2 (Some v) stack)
           {| size := sz; cells := ∅; cursor := None; shown := ∅ |}).

End WithApp.

Arguments mkOutcome {_ _}.
Arguments o_panic {_ _}.
Arguments o_ops {_ _}.
Arguments o_focus {_ _}.
Arguments o_app {_ _}.
Arguments mkRuntime {_ _}.
Arguments screen {_ _}.
Arguments focusManager {_ _}.
Arguments cursorX {_ _}.
Arguments cursorY {_ _}.
Arguments showCursor {_ _}.
Arguments lastPanic {_ _}.
Arguments panicStack {_ _}.
Arguments app {_ _}.
Arguments StepRender {_}.
Arguments StepHandlers {_}.
Arguments StepTab {_}.
Arguments StepResize {_}.

(** The runtime of [TestPanicRecovery]: a root component that panics with
    the value [oops], on a simulation screen of 80 columns and 25 rows. *)
Definition panickingRoot (sz : Z * Z) (fm : Focus.FocusManager) (a : unit)
  : Outcome (list rune) unit :=
  {| o_panic := Some (runes "oops", runes "goroutine 1 [running]:");
     o_ops := []; o_focus := fm; o_app := a |}.

Definition testRuntime : Runtime (list rune) unit :=
  {| screen := {| size := (80, 25); cells := ∅; cursor := None; shown := ∅ |};
     focusManager := Focus.newFocusManager;
     cursorX := 0; cursorY := 0; showCursor := false;
     lastPanic := None; panicStack := []; app := tt |}.

End RuntimeLoop.

(* ===================================================================== *)
(** ** bridge.go: the rendezvous between the UI and a background task *)
(* ===================================================================== *)

Module Bridge.

Section WithTypes.

(** The type parameters [Q] and [A] of the bridge, and
    [reflect.DeepEqual] on questions. *)
Variable Q : Type.
Variable A : Type.
Variable QEqual : Q → Q → bool.

(** A channel [chan A] made by [make(chan A)]: unbuffered, known by its
    identity. *)
Definition chanId := nat.

(** [type pendingInteraction struct] *)
Record pendingInteraction := mkPending {
  question : Q;
  answerCh : chanId
}.

(** The values of the cell [bridge_interaction]: a
    [*pendingInteraction], [nil] or not. *)
Definition cellValue := option pendingInteraction.

(** [reflect.DeepEqual] on two such pointers: both [nil], or both not
    [nil] with deeply equal questions and the same channel. *)
Definition DeepEqual (a b : cellValue) : bool :=
  match a, b with
  | None, None => true
  | Some p, Some p' =>
      QEqual (question p) (question p') && (answerCh p =? answerCh p')%nat
  | _, _ => false
  end.

(** The background task inside [bridgeHandle.Ask]: before
    [make(chan A)], before [h.bridge.interaction.Set(...)], blocked in
    [<-answerCh], returned with the value received. *)
Inductive AskState :=
| AskStart (q : Q)
| AskMade (q : Q) (ch : chanId)
| AskWaiting (ch : chanId)
| AskReturned (a : A).

(** The UI task around [Bridge.Submit]: not in it, blocked in
    [answerCh <- answer], past the send and before
    [b.interaction.Set(nil)]. *)
Inductive SubmitState :=
| UiIdle
| UiSending (ch : chanId) (a : A)
| UiSent.

(** The two tasks and what they share.  [heap] has the record of the
    component that calls [UseBridge] and the runtime.  [handles] holds the
    [State] objects made by [Use]: the one of the bridge whose handle the
    background task holds ([askHandle], the field [h.bridge.interaction])
    and the one of the bridge of the last render ([uiHandle], the field
    [b.interaction]); they may be the same object. *)
Record Config := mkConfig {
  heap : Hooks.Heap cellValue unit;
  handles : gmap nat (Hooks.State cellValue);
  nextHandle : nat;
  nextChan : chanId;
  askHandle : nat;
  uiHandle : nat;
  asker : AskState;
  ui : SubmitState
}.

(** [Bridge.HasInteraction] and [Bridge.Interaction], on the bridge of
    the last render *)
Definition HasInteraction (c : Config) : bool :=
  match handles c !! uiHandle c with
  | Some s => match Hooks.Val s with Some _ => true | None => false end
  | None => false
  end.

Definition Interaction (c : Config) : option Q :=
  match handles c !! uiHandle c with
  | Some s => question <$> Hooks.Val s
  | None => None
  end.

(** The steps of the two tasks. *)
Inductive Action :=
| ActMake                (* Ask: answerCh := make(chan A) *)
| ActPublish             (* Ask: h.bridge.interaction.Set(&pendingInteraction{...}) *)
| ActRender              (* UI: a render pass, UseBridge makes a new bridge *)
| ActSubmit (a : A)      (* UI: Submit(a) is called and tests b.interaction.Val *)
| ActHandoff             (* the send of Submit meets the receive of Ask *)
| ActSubmitSet.          (* UI: b.interaction.Set(nil), Submit returns *)

(** One step; [None] when the action cannot take place in [c] (the task
    is elsewhere, or it is blocked). *)
Definition step (act : Action) (c : Config) : option Config :=
  match act with
  | ActMake =>
      match asker c with
      | AskStart q =>
          Some {| heap := heap c; handles := handles c;
                  nextHandle := nextHandle c; nextChan := S (nextChan c);
                  askHandle := askHandle c; uiHandle := uiHandle c;
                  asker := AskMade q (nextChan c); ui := ui c |}
      | _ => None
      end
  | ActPublish =>
      match asker c, handles c !! askHandle c with
      | AskMade q ch, Some s =>
          let '(s', h') :=
            Hooks.State_Set DeepEqual s
              (Some {| question := q; answerCh := ch |}) (heap c) in
          Some {| heap := h'; handles := <[askHandle c := s']> (handles c);
                  nextHandle := nextHandle c; nextChan := nextChan c;
                  askHandle := askHandle c; uiHandle := uiHandle c;
                  asker := AskWaiting ch; ui := ui c |}
      | _, _ => None
      end
  | ActRender =>
      match ui c with
      | UiIdle =>
          let '(s, h') := Hooks.Use "bridge_interaction" None (heap c) in
          Some {| heap := h'; handles := <[nextHandle c := s]> (handles c);
                  nextHandle := S (nextHandle c); nextChan := nextChan c;
                  askHandle := askHandle c; uiHandle := nextHandle c;
                  asker := asker c; ui := UiIdle |}
      | _ => None
      end
  | ActSubmit a =>
      match ui c, handles c !! uiHandle c with
      | UiIdle, Some s =>
          match Hooks.Val s with
          | Some p =>
              Some {| heap := heap c; handles := handles c;
                      nextHandle := nextHandle c; nextChan := nextChan c;
                      askHandle := askHandle c; uiHandle := uiHandle c;
                      asker := asker c; ui := UiSending (answerCh p) a |}
          | None => Some c
          end
      | _, _ => None
      end
  | ActHandoff =>
      match ui c, asker c with
      | UiSending ch a, AskWaiting ch' =>
          if bool_decide (ch = ch') then
            Some {| heap := heap c; handles := handles c;
                    nextHandle := nextHandle c; nextChan := nextChan c;
                    askHandle := askHandle c; uiHandle := uiHandle c;
                    asker := AskReturned a; ui := UiSent |}
          else None
      | _, _ => None
      end
  | ActSubmitSet =>
      match ui c, handles c !! uiHandle c with
      | UiSent, Some s =>
          let '(s', h') := Hooks.State_Set DeepEqual s None (heap c) in
          Some {| heap := h'; handles := <[uiHandle c := s']> (handles c);
                  nextHandle := nextHandle c; nextChan := nextChan c;
                  askHandle := askHandle c; uiHandle := uiHandle c;
                  asker := asker c; ui := UiIdle |}
      | _, _ => None
      end
  end.

(** A schedule: the steps in the order in which they take place. *)
Fixpoint run (acts : list Action) (c : Config) : option Config :=
  match acts with
  | [] => Some c
  | act :: acts' =>
      match step act c with
      | Some c' => run acts' c'
      | None => None
      end
  end.

(** The start of a call of [Ask]: the UI is not inside [Submit]; the
    handle of the background task exists; and the channels that the cell
    or a handle mention were made before (so the channel that [Ask] makes
    is a new one). *)
Definition channelOf (v : cellValue) : option chanId := answerCh <$> v.

Record starts (q : Q) (c : Config) : Prop := mkStarts {
  starts_asker : asker c = AskStart q;
  starts_ui : ui c = UiIdle;
  starts_handle : ∃ s, handles c !! askHandle c = Some s ∧
                       Hooks.key s = "bridge_interaction";
  starts_channels : ∀ i s ch,
    handles c !! i = Some s → channelOf (Hooks.Val s) = Some ch →
    (ch < nextChan c)%nat
}.

End WithTypes.

Arguments mkPending {_}.
Arguments question {_}.
Arguments answerCh {_}.
Arguments AskStart {_ _}.
Arguments AskMade {_ _}.
Arguments AskWaiting {_ _}.
Arguments AskReturned {_ _}.
Arguments UiIdle {_}.
Arguments UiSending {_}.
Arguments UiSent {_}.
Arguments mkConfig {_ _}.
Arguments heap {_ _}.
Arguments handles {_ _}.
Arguments nextHandle {_ _}.
Arguments nextChan {_ _}.
Arguments askHandle {_ _}.
Arguments uiHandle {_ _}.
Arguments asker {_ _}.
Arguments ui {_ _}.
Arguments HasInteraction {_ _}.
Arguments Interaction {_ _}.
Arguments ActMake {_}.
Arguments ActPublish {_}.
Arguments ActRender {_}.
Arguments ActSubmit {_}.
Arguments ActHandoff {_}.
Arguments ActSubmitSet {_}.

(** A bridge with strings for questions and booleans for answers, right
    after the first render: the cell holds [nil], the background task got
    the handle of this render and calls [Ask("delete?")]. *)
Definition exampleConfig : Config string bool :=
  {| heap := {| Hooks.h_ctx :=
                  Hooks.setState "bridge_interaction" None
                    (Hooks.newComponentContext (cellValue string) unit true);
                Hooks.h_runtime := {| Hooks.refreshChan := false |} |};
     handles := {[ 0%nat := {| Hooks.Val := None;
                               Hooks.key := "bridge_interaction" |} ]};
     nextHandle := 1; nextChan := 0;
     askHandle := 0; uiHandle := 0;
     asker := AskStart "delete?"; ui := UiIdle |}.

End Bridge.

(* ===================================================================== *)
(** ** Values for the examples of the focus manager *)
(* ===================================================================== *)

Module FocusExamples.
Import Focus.

(** The registry after a pass that registers [A], [B] and [C], in this
    order: [A] has the focus. *)
Definition abc : FocusManager :=
  rebuild [("A", 1); ("B", 2); ("C", 3)]%nat newFocusManager.

End FocusExamples.

(* ===================================================================== *)
(** ** More of the hooks runtime: re-renders, memo slots, child records *)
(* ===================================================================== *)

Module Renders.

Section WithValues.

Variable any : Type.
Variable DeepEqual : any → any → bool.
Variable W : Type.

(** A render of a component that registers one effect: the record is
    reset ([componentContext.reset], which [Child] and [Runtime.render]
    call before the component runs), then the component calls
    [UseEffect]. *)
Definition effectPass (fn : Hooks.effectFn W) (ds : list any)
  (cw : Hooks.componentContext any W * W) : Hooks.componentContext any W * W :=
  Hooks.UseEffect DeepEqual fn ds (Hooks.reset cw.1) cw.2.

Definition effectPasses (n : nat) (fn : Hooks.effectFn W) (ds : list any)
  (cw : Hooks.componentContext any W * W) : Hooks.componentContext any W * W :=
  Nat.iter n (effectPass fn ds) cw.

End WithValues.

End Renders.

Module Memo.

Section WithValues.

Variable any : Type.
Variable DeepEqual : any → any → bool.
Variable W : Type.

(** [type memoSlot struct] *)
Record memoSlot := mkMemoSlot {
  deps : list any;
  value : any
}.

(** context.go, [type componentContext struct]: the fields the memo hook
    uses. *)
Record componentContext := mkContext {
  memos : gmap Z memoSlot;
  memoIndex : Z
}.

(** [componentContext.reset], on these fields *)
Definition reset (c : componentContext) : componentContext :=
  {| memos := memos c; memoIndex := 0 |}.

(** [componentContext.nextMemoKey], [getMemoSlot], [setMemoSlot] *)
Definition nextMemoKey (c : componentContext) : Z * componentContext :=
  (memoIndex c, {| memos := memos c; memoIndex := (memoIndex c + 1)%Z |}).

Definition getMemoSlot (k : Z) (c : componentContext) : option memoSlot :=
  memos c !! k.

Definition setMemoSlot (k : Z) (slot : memoSlot) (c : componentContext)
  : componentContext :=
  {| memos := <[k := slot]> (memos c); memoIndex := memoIndex c |}.

(** [UseMemo]; the function [fn] is a closure, which may act on the
    program state (the test counts its calls). *)
Definition UseMemo (fn : W → any * W) (ds : list any)
  (c : componentContext) (w : W) : any * componentContext * W :=
  let '(k, c) := nextMemoKey c in
  let recompute :=
    let '(v, w) := fn w in
    (v, setMemoSlot k {| deps := ds; value := v |} c, w) in
  match getMemoSlot k c with
  | None => recompute
  | Some slot =>
      if negb (Hooks.depsEqual DeepEqual (deps slot) ds) then recompute
      else (value slot, c, w)
  end.

End WithValues.

Arguments mkMemoSlot {_}.
Arguments deps {_}.
Arguments value {_}.
Arguments mkContext {_}.
Arguments memos {_}.
Arguments memoIndex {_}.
Arguments reset {_}.
Arguments nextMemoKey {_}.
Arguments getMemoSlot {_}.
Arguments setMemoSlot {_}.
Arguments UseMemo {_} DeepEqual {_}.

(** The values of [TestUseMemo]: strings for the dependencies, integers
    for what the function returns, compared by [reflect.DeepEqual]; the
    function counts its calls and returns the count. *)
Inductive testValue := VInt (n : nat) | VString (s : string).

Definition testEqual (a b : testValue) : bool :=
  match a, b with
  | VInt n, VInt m => bool_decide (n = m)
  | VString s, VString t => bool_decide (s = t)
  | _, _ => false
  end.

Definition countingMemo : nat → testValue * nat := fun n => (VInt (S n), S n).

End Memo.

Module Identity.

Section WithValues.

Variable any : Type.
Variable W : Type.

(** context.go, [type componentContext struct], as a parent: the map of
    its child records (each with the fields the hooks use) and its
    [runtime] pointer, which the children inherit. *)
Record parent := mkParent {
  children : gmap string (Hooks.componentContext any W);
  hasRuntime : bool
}.

(** The key under which [Child(key, index...)] stores the record:
    [fmt.Sprintf("%s[%d]", key, index[0])] when an index is given. *)
Definition fullKey (key : string) (index : list Z) : string :=
  match index with
  | [] => key
  | i :: _ => key +:+ "[" +:+ pretty i +:+ "]"
  end.

(** [componentContext.Child]: the record of the child is designated by
    its key in the map of the parent. *)
Definition Child (key : string) (index : list Z) (p : parent)
  : string * parent :=
  let fullKey := fullKey key index in
  match children p !! fullKey with
  | Some child =>
      (fullKey,
       {| children := <[fullKey := Hooks.reset child]> (children p);
          hasRuntime := hasRuntime p |})
  | None =>
      (fullKey,
       {| children := <[fullKey := Hooks.newComponentContext any W (hasRuntime p)]>
                        (children p);
          hasRuntime := hasRuntime p |})
  end.

(** A write to a state cell of a child ([componentContext.setState] on
    the record that [Child] returned). *)
Definition setChildState (child : string) (k : string) (v : any) (p : parent)
  : parent :=
  match children p !! child with
  | Some c =>
      {| children := <[child := Hooks.setState k v c]> (children p);
         hasRuntime := hasRuntime p |}
  | None => p
  end.

End WithValues.

Arguments mkParent {_ _}.
Arguments children {_ _}.
Arguments hasRuntime {_ _}.
Arguments Child {_ _}.
Arguments setChildState {_ _}.

End Identity.

(* ===================================================================== *)
(** ** Where a render draws *)

Module Cells.
Import Layout.

Local Open Scope Z_scope.

(** The cell a call on the screen addresses. *)
Definition position (op : Op) : Z * Z :=
  match op with
  | SetContent x y _ _ _ => (x, y)
  | ShowCursor x y => (x, y)
  end.

(** The call addresses a cell of the rectangle ([Rect.Contains]). *)
Definition drawsIn (r : Rect) (op : Op) : bool :=
  Contains r (position op).1 (position op).2.

(** The call displaced by [(dx, dy)]. *)
Definition shift (dx dy : Z) (op : Op) : Op :=
  match op with
  | SetContent x y mainc combc style => SetContent (x + dx) (y + dy) mainc combc style
  | ShowCursor x y => ShowCursor (x + dx) (y + dy)
  end.

(** The viewport of a proxy, as a rectangle. *)
Definition viewport (s : clipScreen) : Rect :=
  mkRect (viewX s) (viewY s) (viewW s) (viewH s).

(** The calls a stack makes on its children, observed with the whole
    rectangle: [tracing rend] behaves as [rend] and notes, for each call,
    the child and the rectangle it is granted. *)
Definition tracing {T : Type}
  (rend : Node → Z → Z → Z → Z → T → Z * list Op * T)
  : Node → Z → Z → Z → Z → T * list (Node * Rect)
    → Z * list Op * (T * list (Node * Rect)) :=
  fun n x y width height '(t, log) =>
    let '(used, ops, t) := rend n x y width height t in
    (used, ops, (t, log ++ [(n, mkRect x y width height)])).

End Cells.

(** ** What a pass leaves on the screen *)

Module Frames.
Import Layout RuntimeLoop.

Local Open Scope Z_scope.

(** The caret a call asks for. *)
Definition caretOf (op : Op) : option (Z * Z) :=
  match op with
  | SetContent _ _ _ _ _ => None
  | ShowCursor x y => Some (x, y)
  end.

(** The caret of the last [ShowCursor] among the calls. *)
Definition lastCaret (ops : list Op) : option (Z * Z) :=
  last (omap caretOf ops).

(** The cells that the [SetContent] calls set, in their order, on a
    screen of the size [sz] that holds [m]. *)
Definition paint (sz : Z * Z) (ops : list Op)
  (m : gmap (Z * Z) (rune * tcellStyle)) : gmap (Z * Z) (rune * tcellStyle) :=
  fold_left (fun m op =>
               match op with
               | SetContent x y mainc _ style => setCell sz x y mainc style m
               | ShowCursor _ _ => m
               end) ops m.

(** A text with a line feed after its last line, if it has none. *)
Definition terminated (s : list rune) : list rune :=
  match last s with
  | None => s
  | Some r => if bool_decide (r = 10) then s else s ++ [10]
  end.

(** A root component that draws one cell and asks for the caret next to
    it, and does not panic. *)
Definition caretRoot (sz : Z * Z) (fm : Focus.FocusManager) (a : unit)
  : Outcome (list rune) unit :=
  {| o_panic := None;
     o_ops := [SetContent 0 0 97 [] StyleDefault; ShowCursor 1 0];
     o_focus := fm; o_app := a |}.

End Frames.

(** ** Properties of the focus manager *)
(* ===================================================================== *)

Module FocusFacts.
Import Focus.

Lemma Register_currentKey_nonempty key ctx fm :
  currentKey fm ≠ "" → currentKey (Register key ctx fm) = currentKey fm.
Proof.
  intros Hne. unfold Register.
  destruct (focusMap fm !! key); [done|]. simpl.
  by rewrite decide_False.
Qed.

Lemma registerAll_currentKey_nonempty regs fm :
  currentKey fm ≠ "" → currentKey (registerAll regs fm) = currentKey fm.
Proof.
  revert fm. induction regs as [|[k c] regs IH]; intros fm Hne; [done|].
  unfold registerAll in *. simpl.
  rewrite IH; rewrite Register_currentKey_nonempty; done.
Qed.

(** While no key is focused, the registered keys are all empty strings. *)
Lemma registerAll_currentKey_empty regs fm :
  currentKey fm = "" →
  (∀ k, is_Some (focusMap fm !! k) → k = "") →
  currentKey (registerAll regs fm) = firstKey regs.
Proof.
  revert fm. induction regs as [|[k c] regs IH]; intros fm Hcur Hmap.
  - done.
  - unfold registerAll in *. simpl.
    destruct (decide (k = "")) as [->|Hk].
    + assert (Hf : firstKey (("", c) :: regs) = firstKey regs).
      { unfold firstKey. by rewrite fmap_cons, filter_cons. }
      rewrite Hf. apply IH.
      * unfold Register. destruct (focusMap fm !! ""); [done|]. simpl.
        by rewrite decide_True.
      * intros k' Hk'. unfold Register in Hk'.
        destruct (focusMap fm !! "") eqn:E; [by apply Hmap|]. simpl in Hk'.
        destruct (decide (k' = "")) as [|Hne]; [done|].
        rewrite lookup_insert_ne in Hk' by done. by apply Hmap.
    + assert (Hf : firstKey ((k, c) :: regs) = k).
      { unfold firstKey. rewrite fmap_cons, filter_cons. simpl.
        by rewrite decide_True. }
      rewrite Hf.
      assert (Hnew : focusMap fm !! k = None).
      { destruct (focusMap fm !! k) eqn:E; [|done].
        exfalso. apply Hk, Hmap. by rewrite E. }
      pose proof (registerAll_currentKey_nonempty regs (Register k c fm)) as Hkeep.
      unfold registerAll in Hkeep. rewrite Hkeep.
      * unfold Register. rewrite Hnew. simpl. by rewrite decide_True.
      * unfold Register. rewrite Hnew. simpl. by rewrite decide_True.
Qed.

(** What a rebuild does to the current key: a focused key is never
    replaced, whether or not it is registered again; only when no key is
    focused does the first registered key become the current one (none
    when nothing is registered). *)
Lemma rebuild_currentKey (fm : FocusManager) (regs : list (string * ctxRef)) :
  currentKey (rebuild regs fm) =
    if decide (currentKey fm = "") then firstKey regs else currentKey fm.
Proof.
  unfold rebuild. destruct (decide (currentKey fm = "")) as [He|Hne].
  - apply registerAll_currentKey_empty; [done|].
    intros k [v Hv]. simpl in Hv. by rewrite lookup_empty in Hv.
  - by rewrite registerAll_currentKey_nonempty.
Qed.

Lemma renders_currentKey_nonempty passes : ∀ fm,
  currentKey fm ≠ "" → currentKey (renders passes fm) = currentKey fm.
Proof.
  induction passes as [|regs passes IH]; intros fm Hne; [done|].
  unfold renders in *. simpl.
  assert (Hkeep : currentKey (rebuild regs fm) = currentKey fm)
    by (rewrite rebuild_currentKey; by rewrite decide_False).
  rewrite IH; by rewrite Hkeep.
Qed.

(** A key that is registered again keeps the focus. *)
Lemma rebuild_keeps_registered_key fm regs :
  currentKey fm ≠ "" → currentKey fm ∈ regs.*1 →
  currentKey (rebuild regs fm) = currentKey fm.
Proof. intros Hne _. rewrite rebuild_currentKey. by rewrite decide_False. Qed.

(** The claim fails: the first pass registers [root/a], which takes the
    focus; the second pass registers only [root/b]; the current key is
    still [root/a], which is no longer registered. *)
Lemma rebuild_claim_fails : ¬ rebuild_claim.
Proof.
  intros H.
  destruct (H (rebuild [("root/a", 1)] newFocusManager) [("root/b", 2)])
    as [_ H2].
  assert (Hnot : currentKey (rebuild [("root/a", 1)] newFocusManager)
                   ∉ [("root/b", 2)].*1).
  { vm_compute. intros Hin. apply list_elem_of_In in Hin.
    destruct Hin as [Hin|[]]. discriminate Hin. }
  specialize (H2 Hnot). vm_compute in H2. discriminate H2.
Qed.

(** C2, at the failing input: a pass registers [root/a] and [root/b], and
    [root/a] has the focus; the next pass registers [root/b] only.  After
    it the registry holds [root/b] alone and the current key is still
    [root/a], while [Unregister], for the same removal, moves the focus to
    the first key that is left. *)
Theorem rebuild_keeps_vanished_key :
  let fm1 := rebuild [("root/a", 1); ("root/b", 2)]%nat newFocusManager in
  let fm2 := rebuild [("root/b", 2)]%nat fm1 in
  currentKey fm1 = "root/a" ∧
  focusable fm2 = ["root/b"] ∧
  currentKey fm2 = "root/a" ∧
  focusMap fm2 !! "root/a" = None ∧
  currentKey (Unregister "root/a" fm1) = "root/b".
Proof. repeat split; vm_compute; reflexivity. Qed.

End FocusFacts.

(* ===================================================================== *)
(** ** Properties of the hooks runtime *)
(* ===================================================================== *)

Module HooksFacts.
Import Hooks.

Section WithValues.

Variable any : Type.
Variable DeepEqual : any → any → bool.
Variable W : Type.

Implicit Types (c : componentContext any W) (w : W).



(** The three cases of [UseEffect]. *)
Lemma UseEffect_first fn ds c w :
  getEffectSlot (effectIndex c) c = None →
  UseEffect DeepEqual fn ds c w =
    (setEffectSlot (effectIndex c)
       {| deps := ds; cleanup := (fn w).1; ran := true |}
       (setEffectSlot (effectIndex c)
          {| deps := []; cleanup := None; ran := false |}
          (nextEffectKey c).2),
     (fn w).2).
Proof.
  intros Hnone. unfold UseEffect. simpl.
  unfold getEffectSlot in *. simpl. rewrite Hnone. simpl.
  by destruct (fn w).
Qed.

Lemma UseEffect_same fn ds c w slot :
  getEffectSlot (effectIndex c) c = Some slot →
  ran slot = true →
  depsEqual DeepEqual (deps slot) ds = true →
  UseEffect DeepEqual fn ds c w = ((nextEffectKey c).2, w).
Proof.
  intros Hslot Hran Heq. unfold UseEffect. simpl.
  unfold getEffectSlot in *. simpl. rewrite Hslot. simpl.
  by rewrite Hran, Heq.
Qed.

Lemma UseEffect_changed fn ds c w slot :
  getEffectSlot (effectIndex c) c = Some slot →
  depsEqual DeepEqual (deps slot) ds = false →
  let w1 := match cleanup slot with Some cl => cl w | None => w end in
  UseEffect DeepEqual fn ds c w =
    (setEffectSlot (effectIndex c)
       {| deps := ds; cleanup := (fn w1).1; ran := true |}
       (nextEffectKey c).2,
     (fn w1).2).
Proof.
  intros Hslot Hne. unfold UseEffect. simpl.
  unfold getEffectSlot in *. simpl. rewrite Hslot. simpl.
  rewrite Hne, orb_true_r.
  by destruct (fn _).
Qed.

(** C6: for the slot a call of [UseEffect] addresses (the one at the
    effect index of the record).  First render (no slot yet): the program
    state after the call is the state after one run of the body, and the
    slot stores the dependencies and the cleanup the body returned.  Slot
    that has run, dependencies equal element by element: the program state
    is untouched and the slot is the stored one.  Dependencies not equal:
    the program state is the one after the stored cleanup (when there is
    one) followed by one run of the body, and the slot stores the new
    dependencies and the cleanup that this run returned.  In every case the
    effect index advances by one. *)
Theorem UseEffect_spec (fn : effectFn W) (ds : list any) c w :
  let k := effectIndex c in
  let '(c', w') := UseEffect DeepEqual fn ds c w in
  effectIndex c' = (k + 1)%Z ∧
  (getEffectSlot k c = None →
     w' = (fn w).2 ∧
     getEffectSlot k c' =
       Some {| deps := ds; cleanup := (fn w).1; ran := true |}) ∧
  (∀ slot, getEffectSlot k c = Some slot → ran slot = true →
     depsEqual DeepEqual (deps slot) ds = true →
     w' = w ∧ getEffectSlot k c' = Some slot) ∧
  (∀ slot, getEffectSlot k c = Some slot →
     depsEqual DeepEqual (deps slot) ds = false →
     (∀ cl, cleanup slot = Some cl →
        w' = (fn (cl w)).2 ∧
        getEffectSlot k c' =
          Some {| deps := ds; cleanup := (fn (cl w)).1; ran := true |}) ∧
     (cleanup slot = None →
        w' = (fn w).2 ∧
        getEffectSlot k c' =
          Some {| deps := ds; cleanup := (fn w).1; ran := true |})).
Proof.
  intros k. subst k.
  destruct (UseEffect DeepEqual fn ds c w) as [c' w'] eqn:E.
  split; [|split; [|split]].
  - revert E. unfold UseEffect. simpl.
    destruct (getEffectSlot _ _) as [slot|]; simpl.
    + destruct (negb (ran slot) || negb _);
        [destruct (fn _)|]; intros [= <- <-]; done.
    + destruct (fn w); intros [= <- <-]; done.
  - intros Hnone. rewrite UseEffect_first in E by done.
    injection E as <- <-. split; [done|].
    unfold getEffectSlot, setEffectSlot. simpl. apply lookup_insert_eq.
  - intros slot Hslot Hran Heq.
    rewrite (UseEffect_same _ _ _ _ slot) in E by done.
    injection E as <- <-. done.
  - intros slot Hslot Hne.
    pose proof (UseEffect_changed fn ds c w slot Hslot Hne) as Hc.
    simpl in Hc. rewrite Hc in E. injection E as <- <-.
    split.
    + intros cl Hcl. rewrite Hcl. split; [done|].
      unfold getEffectSlot, setEffectSlot. simpl. apply lookup_insert_eq.
    + intros Hcl. rewrite Hcl. split; [done|].
      unfold getEffectSlot, setEffectSlot. simpl. apply lookup_insert_eq.
Qed.

(** A refresh request leaves the state cells alone. *)
Lemma getState_Refresh_any k (h : Heap any W) :
  getState k (h_ctx (Refresh h)) = getState k (h_ctx h).
Proof. unfold Refresh. by destruct (hasRuntime _). Qed.

(** A handle made by [Use] holds the value of its cell. *)
Lemma Use_in_sync (k : string) (initial : any) (h : Heap any W) :
  let '(s, h') := Use k initial h in
  key s = k ∧ getState k (h_ctx h') = Some (Val s).
Proof.
  unfold Use. destruct (getState k (h_ctx h)) as [v|] eqn:E; simpl.
  - done.
  - split; [done|]. unfold getState. simpl. apply lookup_insert_eq.
Qed.

End WithValues.


(** The script of [TestUseEffect]: the effect is registered with the
    dependency [dep1], again with [dep1], then with [dep2]. *)
Lemma UseEffect_spec_witness :
  let c0 := newComponentContext string (nat * nat) true in
  let '(c1, w1) := UseEffect depString countingEffect ["dep1"] c0 (0, 0)%nat in
  let '(c2, w2) := UseEffect depString countingEffect ["dep1"] (reset c1) w1 in
  let '(c3, w3) := UseEffect depString countingEffect ["dep2"] (reset c2) w2 in
  w1 = (1, 0)%nat ∧ w2 = (1, 0)%nat ∧ w3 = (2, 1)%nat.
Proof.
  intros c0.
  pose proof (UseEffect_spec string depString (nat * nat) countingEffect
                ["dep1"] c0 (0, 0)%nat) as H1.
  destruct (UseEffect depString countingEffect ["dep1"] c0 (0, 0)%nat)
    as [c1 w1].
  destruct H1 as (_ & Hfirst & _ & _).
  destruct (Hfirst eq_refl) as [Hw1 Hslot1]. simpl in Hw1. subst w1.
  pose proof (UseEffect_spec string depString (nat * nat) countingEffect
                ["dep1"] (reset c1) (1, 0)%nat) as H2.
  destruct (UseEffect depString countingEffect ["dep1"] (reset c1) (1, 0)%nat)
    as [c2 w2].
  destruct H2 as (_ & _ & Hsame & _).
  destruct (Hsame _ Hslot1 eq_refl eq_refl) as [Hw2 Hslot2]. subst w2.
  pose proof (UseEffect_spec string depString (nat * nat) countingEffect
                ["dep2"] (reset c2) (1, 0)%nat) as H3.
  destruct (UseEffect depString countingEffect ["dep2"] (reset c2) (1, 0)%nat)
    as [c3 w3].
  destruct H3 as (_ & _ & _ & Hchanged).
  destruct (Hchanged _ Hslot2 eq_refl) as [Hcl _].
  destruct (Hcl _ eq_refl) as [Hw3 _]. simpl in Hw3. subst w3.
  repeat split; reflexivity.
Defined.

End HooksFacts.

(* ===================================================================== *)
(** ** Properties of the layout engine *)
(* ===================================================================== *)

Module LayoutFacts.
Import Layout.

Local Open Scope Z_scope.

Section WithRuneWidth.

Variable RuneWidth : rune → Z.
Variable StringWidth : list rune → Z.

(** *** Text: measuring and rendering wrap alike *)

Lemma measureWrap_lines width content : ∀ currentX lines,
  lines <= measureWrap RuneWidth width currentX lines content.
Proof.
  induction content as [|r rest IH]; intros currentX lines; simpl; [lia|].
  repeat case_bool_decide;
    match goal with |- _ <= measureWrap _ _ ?cx ?ln _ =>
      specialize (IH cx ln) end; lia.
Qed.

Lemma textWrap_measureWrap x width height style content :
  ∀ currentX mx currentY lines,
    mx = currentX - x →
    measureWrap RuneWidth width mx lines content <= height →
    (textWrap RuneWidth x width height style currentX currentY lines content).1
    = measureWrap RuneWidth width mx lines content.
Proof.
  induction content as [|r rest IH]; intros currentX mx currentY lines -> Hle;
    simpl in *; [done|].
  destruct (bool_decide (currentX - x + RuneWidth r > width)) eqn:Hm.
  - apply bool_decide_eq_true in Hm.
    rewrite bool_decide_eq_true_2 by lia.
    destruct (bool_decide (r = 10)) eqn:Hr.
    + pose proof (measureWrap_lines width rest 0 (lines + 1 + 1)).
      rewrite !bool_decide_eq_false_2 by lia.
      apply IH; [lia|done].
    + pose proof (measureWrap_lines width rest (0 + RuneWidth r) (lines + 1)).
      rewrite bool_decide_eq_false_2 by lia.
      specialize (IH (x + RuneWidth r) (0 + RuneWidth r) (currentY + 1)
                     (lines + 1) ltac:(lia) Hle).
      by destruct (textWrap _ _ _ _ _ _ _ _ _) as [n ops].
  - apply bool_decide_eq_false in Hm.
    rewrite bool_decide_eq_false_2 by lia.
    destruct (bool_decide (r = 10)) eqn:Hr.
    + pose proof (measureWrap_lines width rest 0 (lines + 1)).
      rewrite bool_decide_eq_false_2 by lia.
      apply IH; [lia|done].
    + specialize (IH (currentX + RuneWidth r) (currentX - x + RuneWidth r)
                     currentY lines ltac:(lia) Hle).
      by destruct (textWrap _ _ _ _ _ _ _ _ _) as [n ops].
Qed.

(** C8: for a text node with wrapping and a positive width, a render that
    is granted at least the measured number of rows returns exactly the
    measured number of rows. *)
Theorem text_wrap_render_measure (content : list rune) (style : Style.t)
    (x y width height : Z) (wd : World) :
  width > 0 →
  measureNodeHeight RuneWidth (textNode content style true) width <= height →
  (render RuneWidth StringWidth (textNode content style true)
     x y width height wd).1.1
  = measureNodeHeight RuneWidth (textNode content style true) width.
Proof.
  intros Hw Hle. simpl in *. unfold textRender.
  rewrite bool_decide_eq_false_2 in * by lia. simpl in *.
  pose proof (measureWrap_lines width content 0 1).
  rewrite bool_decide_eq_false_2 by lia.
  pose proof (textWrap_measureWrap x width height (toTcell style) content
                x 0 y 1 ltac:(lia) Hle) as Heq.
  rewrite (bool_decide_eq_false_2 (width <= 0)) by lia.
  by destruct (textWrap _ _ _ _ _ _ _ _ _) as [n ops].
Qed.

(** *** Vertical stack: what the flex children are granted *)

Section VStackCalls.

Variable T : Type.
Variable rend : Node → Z → Z → Z → Z → T → Z * list Op * T.

(** Observing the calls does not change what the loop computes. *)
Lemma vstackLoop_recording x y width height gap fu len children :
  ∀ i currentY total t log,
    let r := vstackLoop RuneWidth T rend x y width height gap fu len
               children i currentY total t in
    let r' := vstackLoop RuneWidth _ (recording rend) x y width height gap fu
                len children i currentY total (t, log) in
    r'.1 = r.1 ∧ r'.2.1 = r.2.
Proof.
  induction children as [|[child|] cs IH]; intros i currentY total t log;
    simpl; [done| |apply IH].
  case_bool_decide; [done|].
  destruct (rend child x currentY width _ t) as [[used ops] t'] eqn:E. simpl.
  destruct (bool_decide (i < len - 1)); simpl;
    match goal with
    | |- context [vstackLoop _ T rend _ _ _ _ _ _ _ cs ?i' ?cy' ?tot' t'] =>
        specialize (IH i' cy' tot' t'
                      (log ++ [(child, currentY,
                                vstackChildHeight RuneWidth y width height fu
                                  child currentY)]))
    end;
    simpl in IH;
    destruct (vstackLoop _ T rend _ _ _ _ _ _ _ cs _ _ _ t') as [[a b] c];
    destruct (vstackLoop _ _ (recording rend) _ _ _ _ _ _ _ cs _ _ _ _)
      as [[a' b'] [c' l']];
    simpl in *; destruct IH as [[= -> ->] ->]; done.
Qed.


End VStackCalls.



(** Observing the calls of a vertical stack changes neither the height it
    returns, nor what it draws, nor the world. *)
Lemma vstackRender_recording T rend children style gap justify
    x y width height (t : T) log :
  let r := vstackRender RuneWidth T rend children style gap justify
             x y width height t in
  let r' := vstackRender RuneWidth _ (recording rend) children style gap
              justify x y width height (t, log) in
  r'.1 = r.1 ∧ r'.2.1 = r.2.
Proof.
  unfold vstackRender. simpl.
  repeat (case_bool_decide; simpl; try done).
  all: apply vstackLoop_recording.
Qed.


(** *** Scroll box *)

Lemma elem_of_concat {A} (x : A) (ls : list (list A)) :
  x ∈ concat ls ↔ ∃ l, x ∈ l ∧ l ∈ ls.
Proof.
  rewrite list_elem_of_In, in_concat. split.
  - intros (l & Hl & Hx). exists l. by rewrite !list_elem_of_In.
  - intros (l & Hx & Hl). exists l. by rewrite <- !list_elem_of_In.
Qed.

Lemma elem_of_throughClip p ops op :
  op ∈ throughClip p ops ↔ ∃ op0, op0 ∈ ops ∧ op ∈ clipScreen_call p op0.
Proof.
  unfold throughClip. rewrite elem_of_concat. split.
  - intros (l & Hop & Hl). apply list_elem_of_fmap in Hl as (op0 & -> & Hin).
    eauto.
  - intros (op0 & Hin & Hop). exists (clipScreen_call p op0). split; [done|].
    apply list_elem_of_fmap. eauto.
Qed.

(** A cell reaches the wrapped screen at [(x', y')] exactly when the
    content draws it at [(x' - offX, y' - offY)] and [(x', y')] lies in the
    viewport. *)
Lemma throughClip_SetContent p ops x' y' mainc combc style :
  SetContent x' y' mainc combc style ∈ throughClip p ops ↔
  SetContent (x' - offX p) (y' - offY p) mainc combc style ∈ ops ∧
  viewX p <= x' < viewX p + viewW p ∧ viewY p <= y' < viewY p + viewH p.
Proof.
  rewrite elem_of_throughClip. split.
  - intros (op0 & Hin & Hop). destruct op0 as [x0 y0 m0 c0 s0|x0 y0]; simpl in Hop.
    + unfold clipScreen_SetContent in Hop.
      destruct (_ && _) eqn:Hv in Hop; [|by apply not_elem_of_nil in Hop].
      apply list_elem_of_singleton in Hop. injection Hop as -> -> -> -> ->.
      rewrite !andb_true_iff, !bool_decide_eq_true in Hv.
      replace (x0 + offX p - offX p) with x0 by lia.
      replace (y0 + offY p - offY p) with y0 by lia.
      split; [done|lia].
    + unfold clipScreen_ShowCursor in Hop.
      destruct (_ && _) in Hop; [|by apply not_elem_of_nil in Hop].
      apply list_elem_of_singleton in Hop. discriminate Hop.
  - intros (Hin & Hx & Hy). eexists. split; [exact Hin|]. simpl.
    unfold clipScreen_SetContent.
    replace (x' - offX p + offX p) with x' by lia.
    replace (y' - offY p + offY p) with y' by lia.
    rewrite !bool_decide_eq_true_2 by lia. simpl.
    by apply list_elem_of_singleton.
Qed.

(** A write through a handle that holds the value of its cell leaves the
    written value in the cell. *)
Lemma stateSet_cell ctx (s : Hooks.State Z) v wd :
  Hooks.getState (Hooks.key s) (hooks (ctxs wd ctx)) = Some (Hooks.Val s) →
  Hooks.getState (Hooks.key s) (hooks (ctxs (stateSet ctx s v wd).2 ctx))
  = Some v.
Proof.
  intros Hsync. unfold stateSet, Hooks.State_Set.
  destruct (Hooks.Val s =? v) eqn:E; simpl.
  - rewrite decide_True by done. simpl. apply Z.eqb_eq in E. by rewrite <- E.
  - unfold Hooks.Refresh. simpl.
    destruct (Hooks.hasRuntime _); simpl; rewrite decide_True by done; simpl;
      unfold Hooks.getState; simpl; apply lookup_insert_eq.
Qed.

(** C5: a scroll box with auto-tail on whose content is higher than the
    viewport.  The offset of the render is the content height minus the
    viewport height; the state cell holds it from the write-back on (the
    handle holds the value of its cell when the box is built); the child is
    then drawn on the clipping proxy and the scroll bar on the screen
    itself; and a cell reaches the screen at [(x', y')] exactly when the
    content draws it [offset] rows below and [(x', y')] lies in the
    viewport, which leaves the last column to the scroll bar. *)
Theorem scroll_auto_tail (ctx : ctxRef) (c : Node) (offY0 ch0 flex : Z)
    (s : Hooks.State Z) (x y width height : Z) (wd : World) :
  let contentHeight := measureNodeHeight RuneWidth c (width - 1) in
  let off := contentHeight - height in
  contentHeight > height →
  Hooks.getState (Hooks.key s) (hooks (ctxs wd ctx)) = Some (Hooks.Val s) →
  let synced := scrollSync ctx offY0 contentHeight height true (Some s) wd in
  let child := render RuneWidth StringWidth c x y (width - 1) 1000 synced.2 in
  let proxy := scrollProxy x y width height off in
  synced.1 = off ∧
  Hooks.getState (Hooks.key s) (hooks (ctxs synced.2 ctx)) = Some off ∧
  render RuneWidth StringWidth
    (scrollNode ctx (Some c) offY0 ch0 true flex (Some s)) x y width height wd
  = (height,
     throughClip proxy child.1.2
       ++ scrollBar x y width height off contentHeight,
     child.2) ∧
  ∀ x' y' mainc combc style,
    SetContent x' y' mainc combc style ∈ throughClip proxy child.1.2 ↔
    SetContent x' (y' + off) mainc combc style ∈ child.1.2 ∧
    x <= x' < x + (width - 1) ∧ y <= y' < y + height.
Proof.
  intros contentHeight off Hgt Hsync synced child proxy.
  assert (Hs : synced = (off, (stateSet ctx s off wd).2)).
  { unfold synced, scrollSync. simpl.
    by rewrite bool_decide_eq_true_2 by done. }
  split; [by rewrite Hs|].
  split; [rewrite Hs; by apply stateSet_cell|].
  split.
  - simpl. fold contentHeight. fold synced.
    unfold child, proxy. clear child proxy. rewrite Hs. simpl.
    by destruct (render _ _ c _ _ _ _ _) as [[u ops] wd'].
  - intros x' y' mainc combc style.
    rewrite throughClip_SetContent. simpl.
    replace (x' - 0) with x' by lia.
    replace (y' - - off) with (y' + off) by lia. done.
Qed.

End WithRuneWidth.


(** The two layouts of the specification: two spacers in ten rows get five
    rows each; boxes of weights 1, 1 and 2 in eight rows get 2, 2 and 4. *)
Lemma vstack_flex_examples :
  (vstackCalls exampleRuneWidth exampleStringWidth
     [Some Spacer; Some Spacer] defaultStyle 0 AlignLeft 0 0 80 10
     exampleWorld).*2 = [5; 5] ∧
  (vstackCalls exampleRuneWidth exampleStringWidth
     [Some (boxNode (Some Spacer) (Style_Flex 1 defaultStyle));
      Some (boxNode (Some Spacer) (Style_Flex 1 defaultStyle));
      Some (boxNode (Some Spacer) (Style_Flex 2 defaultStyle))]
     defaultStyle 0 AlignLeft 0 0 80 8 exampleWorld).*2 = [2; 2; 4].
Proof. split; reflexivity. Qed.


Lemma text_wrap_render_measure_witness :
  (render exampleRuneWidth exampleStringWidth
     (textNode [97; 98; 99; 10; 100] defaultStyle true) 0 0 2 5
     exampleWorld).1.1
  = measureNodeHeight exampleRuneWidth
      (textNode [97; 98; 99; 10; 100] defaultStyle true) 2.
Proof.
  apply text_wrap_render_measure; [lia|].
  vm_compute. discriminate.
Defined.

(** A tail box over twenty lines in a viewport of five rows and ten
    columns: the offset is 15, the cell holds 15, and what reaches the
    screen from the content are the five cells of the content rows 15 to
    19, on the rows 0 to 4. *)
Lemma scroll_auto_tail_witness :
  (scrollSync 0%nat 0 20 5 true (Some exampleHandle) exampleScrollWorld).1 = 15 ∧
  Hooks.getState "scrollTop"
    (hooks (ctxs (scrollSync 0%nat 0 20 5 true (Some exampleHandle)
                    exampleScrollWorld).2 0%nat)) = Some 15 ∧
  (render exampleRuneWidth exampleStringWidth exampleTailBox 0 0 10 5
     exampleScrollWorld).1.1 = 5 ∧
  throughClip (scrollProxy 0 0 10 5 15)
    (render exampleRuneWidth exampleStringWidth twentyLines 0 0 9 1000
       (scrollSync 0%nat 0 20 5 true (Some exampleHandle)
          exampleScrollWorld).2).1.2
  = (fun row => SetContent 0 row 97 [] StyleDefault) <$> [0; 1; 2; 3; 4].
Proof.
  destruct (scroll_auto_tail exampleRuneWidth exampleStringWidth 0%nat
              twentyLines 0 0 0 exampleHandle 0 0 10 5 exampleScrollWorld)
    as (H1 & H2 & H3 & _).
  - vm_compute. reflexivity.
  - reflexivity.
  - split; [exact H1|]. split; [exact H2|]. split.
    + unfold exampleTailBox. rewrite H3. reflexivity.
    + vm_compute. reflexivity.
Defined.

(** C1, at the failing input: [Box(Text("a")).Height(10)] rendered in
    three rows draws on the first row only and returns ten rows, while the
    same box with a padding that leaves no room for the content returns the
    three rows it was granted. *)
Theorem box_fixed_height_exceeds_grant :
  render exampleRuneWidth exampleStringWidth
    (boxNode (Some (Text [97])) (Style_Height 10 defaultStyle))
    0 0 80 3 exampleWorld
  = (10, [SetContent 0 0 97 [] StyleDefault], exampleWorld) ∧
  render exampleRuneWidth exampleStringWidth
    (boxNode (Some (Text [97])) (Style_Padding 2 0 (Style_Height 10 defaultStyle)))
    0 0 80 3 exampleWorld
  = (3, [], exampleWorld).
Proof. split; reflexivity. Qed.

(** Two more renders that return more than they are granted: a wrapped
    text that does not fit returns one row more than the grant, and a
    horizontal stack returns one row when it is granted none. *)
Lemma used_height_above_grant_examples :
  (render exampleRuneWidth exampleStringWidth
     (textNode [97; 98] defaultStyle true) 0 0 1 1 exampleWorld).1.1 = 2 ∧
  (render exampleRuneWidth exampleStringWidth
     (HStack [Some Spacer]) 0 0 80 0 exampleWorld).1.1 = 1.
Proof. split; reflexivity. Qed.

End LayoutFacts.

(* ===================================================================== *)
(** ** Properties of the dispatch of pointer events *)
(* ===================================================================== *)

Module DispatchFacts.
Import Dispatch.

Section WithHandlers.

Variable Handler : Type.

(** Induction on a tree of records, with the property for the children. *)
Lemma componentContext_tree_ind (P : componentContext Handler → Prop) :
  (∀ k r h cs, Forall P cs → P (mkContext k r h cs)) →
  ∀ c, P c.
Proof.
  intros Hstep.
  fix IH 1. intros [k r h cs]. apply Hstep.
  induction cs as [|c cs IHcs]; constructor; [apply IH|apply IHcs].
Qed.

(** The calls of a dispatch are the deliveries of the records of the
    tree, parents before children. *)
Lemma dispatchMouseEvent_contexts (c : componentContext Handler) ev :
  dispatchMouseEvent c ev = omap (delivery ev) (contexts c).
Proof.
  induction c as [k r h cs IH] using componentContext_tree_ind.
  simpl. unfold delivery at 1. simpl.
  assert (Hcs : concat (map (fun child => dispatchMouseEvent child ev) cs)
                = omap (delivery ev) (concat (map contexts cs))).
  { induction IH as [|c cs Hc _ IHcs]; simpl; [done|].
    by rewrite omap_app, Hc, IHcs. }
  rewrite Hcs. destruct h as [h|]; simpl; [|done].
  by destruct (Layout.Contains r (X ev) (Y ev)).
Qed.

(** C10: every record of the tree that has a pointer handler is called,
    whether or not the point lies in its rectangle: with the event itself
    when the rectangle contains the point, and otherwise with a copy that
    has the same coordinates and button and the type [Move]; and the
    dispatch makes no other call, one per record with a handler. *)
Theorem dispatchMouseEvent_broadcast (root : componentContext Handler)
    (ev : MouseEvent) :
  (∀ c h, c ∈ contexts root → mouseHandler c = Some h →
     (Layout.Contains (rect c) (X ev) (Y ev) = true →
        (h, ev) ∈ dispatchMouseEvent root ev) ∧
     (Layout.Contains (rect c) (X ev) (Y ev) = false →
        (h, {| X := X ev; Y := Y ev; Button := Button ev;
               Type_ := MouseEventMove |}) ∈ dispatchMouseEvent root ev)) ∧
  (∀ h e, (h, e) ∈ dispatchMouseEvent root ev →
     ∃ c, c ∈ contexts root ∧ mouseHandler c = Some h ∧
          X e = X ev ∧ Y e = Y ev ∧ Button e = Button ev ∧
          Type_ e = if Layout.Contains (rect c) (X ev) (Y ev)
                    then Type_ ev else MouseEventMove) ∧
  length (dispatchMouseEvent root ev)
  = length (filter (fun c => is_Some (mouseHandler c)) (contexts root)).
Proof.
  rewrite dispatchMouseEvent_contexts. split; [|split].
  - intros c h Hc Hh. split; intros Hin; apply list_elem_of_omap;
      exists c; (split; [done|]); unfold delivery; by rewrite Hh, Hin.
  - intros h e Hin. apply list_elem_of_omap in Hin as (c & Hc & Hd).
    exists c. split; [done|]. unfold delivery in Hd.
    destruct (mouseHandler c) as [h'|]; [|done].
    injection Hd as -> <-. split; [done|].
    by destruct (Layout.Contains _ _ _).
  - generalize (contexts root). intros l.
    induction l as [|c l IH]; [done|].
    rewrite filter_cons. simpl. unfold delivery at 1.
    destruct (decide (is_Some (mouseHandler c))) as [[h Hh]|Hn].
    + rewrite Hh. simpl. f_equal. exact IH.
    + destruct (mouseHandler c) as [h|]; [|exact IH].
      exfalso. apply Hn. eauto.
Qed.

End WithHandlers.

(** A click at [(3, 2)]: the handler of the first child, whose rectangle
    contains the point, receives the click; the handler of the second one
    receives a move at the same point, with the same button. *)
Lemma dispatchMouseEvent_broadcast_witness :
  let ev := mkMouseEvent 3 2 MouseButtonLeft MouseEventClick in
  (1%nat, ev) ∈ dispatchMouseEvent exampleTree ev ∧
  (2%nat, mkMouseEvent 3 2 MouseButtonLeft MouseEventMove)
    ∈ dispatchMouseEvent exampleTree ev.
Proof.
  intros ev.
  destruct (dispatchMouseEvent_broadcast nat exampleTree ev) as (Hall & _ & _).
  split.
  - refine (proj1 (Hall (mkContext "a" (Layout.mkRect 0 0 10 5) (Some 1%nat) [])
                        1%nat _ eq_refl) eq_refl).
    apply list_elem_of_In. right. left. reflexivity.
  - refine (proj2 (Hall (mkContext "b" (Layout.mkRect 0 5 10 5) (Some 2%nat) [])
                        2%nat _ eq_refl) eq_refl).
    apply list_elem_of_In. right. right. left. reflexivity.
Defined.

End DispatchFacts.

(* ===================================================================== *)
(** ** Properties of the render pass *)
(* ===================================================================== *)

Module RuntimeLoopFacts.
Import Layout RuntimeLoop.

Local Open Scope Z_scope.

(** Drawing changes neither the size of the screen nor what is shown, and
    the cells it leaves depend on the size and on the cells only. *)
Lemma screenCall_fold ops : ∀ s,
  size (fold_left screenCall ops s) = size s ∧
  shown (fold_left screenCall ops s) = shown s.
Proof.
  induction ops as [|op ops IH]; intros s; simpl; [done|].
  destruct (IH (screenCall s op)) as [-> ->]. by destruct op.
Qed.

Lemma screenCall_fold_cells ops : ∀ s s',
  size s = size s' → cells s = cells s' →
  cells (fold_left screenCall ops s) = cells (fold_left screenCall ops s').
Proof.
  induction ops as [|op ops IH]; intros s s' Hsz Hc; simpl; [done|].
  apply IH; destruct op; simpl; congruence.
Qed.

(** Every cell of the screen that the calls [ops] set has a red
    background after them, when all of [ops] draw on red. *)
Lemma screenCall_fold_red ops : ∀ s x y,
  Forall onRed ops →
  ((∃ c, cells s !! (x, y) = Some c ∧ t_bg c.2 = ColorRed) ∨
   (0 <= x < (size s).1 ∧ 0 <= y < (size s).2 ∧
    ∃ mainc combc style, SetContent x y mainc combc style ∈ ops)) →
  ∃ c, cells (fold_left screenCall ops s) !! (x, y) = Some c ∧
       t_bg c.2 = ColorRed.
Proof.
  induction ops as [|op ops IH]; intros s x y Hred Hcase; simpl.
  - destruct Hcase as [Hc|(_ & _ & m & cb & st & Hin)]; [done|].
    by apply not_elem_of_nil in Hin.
  - apply Forall_cons in Hred as [Hop Hred]. apply IH; [done|].
    destruct op as [x0 y0 m0 c0 s0|x0 y0]; simpl in *.
    + unfold setCell.
      destruct (decide ((x0, y0) = (x, y))) as [[= -> ->]|Hne].
      * destruct Hcase as [(c & Hc & Hbg)|(Hx & Hy & _)].
        -- left. destruct (_ && _); [|eauto].
           rewrite lookup_insert_eq. eauto.
        -- left. rewrite !bool_decide_eq_true_2 by lia. simpl.
           rewrite lookup_insert_eq. eauto.
      * destruct Hcase as [(c & Hc & Hbg)|(Hx & Hy & m & cb & st & Hin)].
        -- left. destruct (_ && _); [|eauto].
           rewrite lookup_insert_ne by done. eauto.
        -- right. split; [done|]. split; [done|].
           apply elem_of_cons in Hin as [[= -> ->]|Hin]; [done|eauto 10].
    + destruct Hcase as [Hc|(Hx & Hy & m & cb & st & Hin)]; [by left|].
      right. split; [done|]. split; [done|].
      apply elem_of_cons in Hin as [Heq|Hin]; [done|eauto 10].
Qed.

Lemma elem_of_forRange lo hi body op :
  op ∈ forRange lo hi body ↔ ∃ i, lo <= i < hi ∧ op ∈ body i.
Proof.
  unfold forRange. rewrite LayoutFacts.elem_of_concat. split.
  - intros (l & Hop & Hl). apply list_elem_of_fmap in Hl as (i & -> & Hi).
    apply elem_of_seqZ in Hi. exists i. split; [lia|done].
  - intros (i & Hi & Hop). exists (body i). split; [done|].
    apply list_elem_of_fmap. exists i. split; [done|].
    apply elem_of_seqZ. lia.
Qed.

Lemma drawTextFrom_onRed x y style text : ∀ i,
  t_bg style = ColorRed → Forall onRed (drawTextFrom x y style i text).
Proof.
  induction text as [|r rest IH]; intros i Hbg; simpl; constructor; auto.
Qed.

Lemma drawStackLines_onRed h style lines : ∀ i,
  t_bg style = ColorRed → Forall onRed (drawStackLines h style i lines).
Proof.
  induction lines as [|l rest IH]; intros i Hbg; simpl; [constructor|].
  case_bool_decide; [constructor|].
  apply Forall_app. split; [by apply drawTextFrom_onRed|by apply IH].
Qed.

Section WithApp.

Variable Value : Type.
Variable format : Value → list rune.
Variable App : Type.
Variable rootAndRender : Z * Z → Focus.FocusManager → App → Outcome Value App.

Implicit Types (r : Runtime Value App) (v : Value) (stack : list rune).

Lemma errorScreenOps_onRed w h lp stack :
  Forall onRed (errorScreenOps Value format w h lp stack).
Proof.
  unfold errorScreenOps. repeat (apply Forall_app; split);
    try (by apply drawTextFrom_onRed); try (by apply drawStackLines_onRed).
  apply Forall_forall. intros op Hop.
  apply elem_of_forRange in Hop as (y & _ & Hop).
  apply elem_of_forRange in Hop as (x & _ & Hop).
  by apply list_elem_of_singleton in Hop as ->.
Qed.

(** The error report covers the screen: every cell of the screen is set,
    on a red background. *)
Lemma errorReport_full_screen w h v stack x y :
  0 <= x < w → 0 <= y < h →
  ∃ c, errorReport Value format (w, h) v stack !! (x, y) = Some c ∧
       t_bg c.2 = ColorRed.
Proof.
  intros Hx Hy. unfold errorReport.
  apply screenCall_fold_red; [apply errorScreenOps_onRed|].
  right. simpl. split; [done|]. split; [done|].
  exists 32, [], errorStyle. unfold errorScreenOps.
  apply elem_of_app. left.
  apply elem_of_forRange. exists y. split; [lia|].
  apply elem_of_forRange. exists x. split; [lia|].
  by apply list_elem_of_singleton.
Qed.

Lemma proxyCall_fold ops : ∀ r,
  let r' := fold_left (proxyCall Value App) ops r in
  size (screen r') = size (screen r) ∧
  lastPanic r' = lastPanic r ∧ panicStack r' = panicStack r ∧
  app r' = app r ∧ focusManager r' = focusManager r.
Proof.
  induction ops as [|op ops IH]; intros r; simpl; [done|].
  specialize (IH (proxyCall Value App r op)). simpl in IH.
  destruct IH as (-> & -> & -> & -> & ->). by destruct op.
Qed.

(** What [drawErrorScreen] and [Show] leave on the terminal after a
    [Clear], whatever the screen held. *)
Lemma shown_errorReport r v stack s :
  lastPanic r = Some v → panicStack r = stack →
  size s = size (screen r) → cells s = ∅ →
  let r' := drawErrorScreen Value format App (withScreen Value App s r) in
  shown (Screen_Show (screen r')) = errorReport Value format (size s) v stack ∧
  size (screen r') = size s.
Proof.
  intros Hv Hst Hsz Hc. simpl. rewrite Hv, Hst.
  split; [|apply screenCall_fold].
  unfold errorReport. destruct (size s) as [w h] eqn:E. simpl.
  apply screenCall_fold_cells; simpl; congruence.
Qed.

(** A pass that starts with a panic recorded draws the error report and
    touches nothing else. *)
Lemma render_latched r v :
  lastPanic r = Some v →
  let r' := render Value format App rootAndRender r in
  lastPanic r' = Some v ∧ panicStack r' = panicStack r ∧
  app r' = app r ∧ focusManager r' = focusManager r ∧
  size (screen r') = size (screen r) ∧
  shown (screen r')
  = errorReport Value format (size (screen r)) v (panicStack r).
Proof.
  intros Hv. unfold render. simpl. rewrite Hv. simpl.
  repeat (split; [done|]).
  pose proof (shown_errorReport r v (panicStack r) (Screen_Clear (screen r))
                Hv eq_refl eq_refl eq_refl) as [Hshown Hsize].
  simpl in *. rewrite Hv in Hshown, Hsize.
  split; [exact Hsize|]. exact Hshown.
Qed.

(** Nothing in the loop resets a recorded panic. *)
Lemma run_latched steps : ∀ r v,
  lastPanic r = Some v →
  lastPanic (run Value format App rootAndRender steps r) = Some v ∧
  panicStack (run Value format App rootAndRender steps r) = panicStack r.
Proof.
  induction steps as [|st steps IH]; intros r v Hv; simpl; [done|].
  assert (Hstep : lastPanic (step Value format App rootAndRender r st) = Some v ∧
                  panicStack (step Value format App rootAndRender r st)
                  = panicStack r).
  { destruct st; simpl; try done.
    destruct (render_latched r v Hv) as (H1 & H2 & _). done. }
  destruct Hstep as [Hv' Hst'].
  destruct (IH _ v Hv') as [-> ->]. done.
Qed.

(** C9: a pass whose body panics (in a component or in the layout and
    drawing of its node) returns to the loop with the panic recorded and
    the full-screen error report shown; after it, whatever events, resizes
    and passes follow, the panic stays recorded, and every pass shows the
    error report for the size of the screen and runs neither the root
    component nor the layout: the state of the application and the focus
    manager are as the pass found them. *)
Theorem render_fault_containment r v stack :
  lastPanic r = None →
  o_panic (rootAndRender (size (screen r)) (Focus.Reset (focusManager r))
             (app r)) = Some (v, stack) →
  let r1 := render Value format App rootAndRender r in
  lastPanic r1 = Some v ∧ panicStack r1 = stack ∧
  shown (screen r1) = errorReport Value format (size (screen r)) v stack ∧
  (∀ x y, 0 <= x < (size (screen r)).1 → 0 <= y < (size (screen r)).2 →
     ∃ c, shown (screen r1) !! (x, y) = Some c ∧ t_bg c.2 = ColorRed) ∧
  ∀ steps,
    let r2 := run Value format App rootAndRender steps r1 in
    let r3 := render Value format App rootAndRender r2 in
    lastPanic r2 = Some v ∧ lastPanic r3 = Some v ∧
    shown (screen r3) = errorReport Value format (size (screen r2)) v stack ∧
    app r3 = app r2 ∧ focusManager r3 = focusManager r2.
Proof.
  intros Hnone Hpanic r1.
  assert (H1 : lastPanic r1 = Some v ∧ panicStack r1 = stack ∧
               shown (screen r1)
               = errorReport Value format (size (screen r)) v stack).
  { unfold r1, render. simpl. rewrite Hnone, Hpanic. simpl.
    split; [done|]. split; [done|].
    match goal with
    | |- context [fold_left (proxyCall Value App) ?ops ?r0] =>
        pose proof (proxyCall_fold ops r0) as Hfold;
        set (rp := fold_left (proxyCall Value App) ops r0) in *
    end.
    simpl in Hfold. destruct Hfold as (Hsz & _).
    pose proof (shown_errorReport
                  {| screen := screen rp; focusManager := focusManager rp;
                     cursorX := cursorX rp; cursorY := cursorY rp;
                     showCursor := showCursor rp; lastPanic := Some v;
                     panicStack := stack; app := app rp |}
                  v stack (Screen_Clear (screen rp))
                  eq_refl eq_refl eq_refl eq_refl) as [Hshown _].
    simpl in Hshown. rewrite Hsz in Hshown. rewrite Hsz. exact Hshown. }
  destruct H1 as (Hv1 & Hst1 & Hshown1).
  split; [done|]. split; [done|]. split; [done|]. split.
  - intros x y Hx Hy. rewrite Hshown1.
    destruct (size (screen r)) as [w h]. by apply errorReport_full_screen.
  - intros steps r2 r3.
    destruct (run_latched steps r1 v Hv1) as [Hv2 Hst2]. fold r2 in Hv2, Hst2.
    destruct (render_latched r2 v Hv2) as (Hv3 & _ & Happ & Hfm & _ & Hshown3).
    fold r3 in Hv3, Happ, Hfm, Hshown3.
    rewrite Hst2, Hst1 in Hshown3. done.
Qed.

End WithApp.

(** The pass of [TestPanicRecovery]: the panic is recorded, the title of
    the report is on the third row of the screen, and a second pass shows
    the same report. *)
Lemma render_fault_containment_witness :
  let r1 := render (list rune) id unit panickingRoot testRuntime in
  lastPanic r1 = Some (runes "oops") ∧
  (fun x => fst <$> shown (screen r1) !! (x, 2)) <$> seqZ 29 22
  = Some <$> runes "  REGO RUNTIME PANIC  " ∧
  shown (screen (render (list rune) id unit panickingRoot r1))
  = shown (screen r1).
Proof.
  intros r1.
  pose proof (render_fault_containment (list rune) id unit panickingRoot
                testRuntime (runes "oops") (runes "goroutine 1 [running]:")
                eq_refl eq_refl) as (Hv & _ & Hshown & _ & Hnext).
  change (render (list rune) id unit panickingRoot testRuntime) with r1
    in Hv, Hshown, Hnext.
  split; [exact Hv|]. split.
  - rewrite Hshown. vm_compute. reflexivity.
  - pose proof (Hnext []) as (_ & _ & Hshown' & _).
    unfold run in Hshown'. cbn [fold_left] in Hshown'.
    rewrite Hshown', Hshown.
    replace (size (screen r1)) with (size (screen testRuntime))
      by (vm_compute; reflexivity).
    reflexivity.
Defined.

End RuntimeLoopFacts.

(* ===================================================================== *)
(** ** Properties of the bridge *)
(* ===================================================================== *)

Module BridgeFacts.
Import Bridge.

Section WithTypes.

Variable Q : Type.
Variable A : Type.
Variable QEqual : Q → Q → bool.

Implicit Types (c : Config Q A) (act : Action A) (acts : list (Action A)).





Lemma getState_Refresh k (h : Hooks.Heap (cellValue Q) unit) :
  Hooks.getState k (Hooks.h_ctx (Hooks.Refresh h))
  = Hooks.getState k (Hooks.h_ctx h).
Proof. unfold Hooks.Refresh. by destruct (Hooks.hasRuntime _). Qed.







End WithTypes.


End BridgeFacts.

(* ===================================================================== *)
(** ** More on the focus manager: the registry, traversal, removal *)
(* ===================================================================== *)

Module FocusMore.
Import Focus.

(** [Register] keeps the keys of the list the keys of the map, once
    each. *)
Lemma Register_consistent key ctx fm :
  NoDup (focusable fm) ∧
  (∀ k, k ∈ focusable fm ↔ is_Some (focusMap fm !! k)) →
  NoDup (focusable (Register key ctx fm)) ∧
  (∀ k, k ∈ focusable (Register key ctx fm)
        ↔ is_Some (focusMap (Register key ctx fm) !! k)).
Proof.
  intros [Hnd Hdom]. unfold Register.
  destruct (focusMap fm !! key) eqn:E; [done|]. split; simpl.
  - apply NoDup_app. split; [done|]. split; [|apply NoDup_singleton].
    intros k Hk ->%list_elem_of_singleton.
    apply Hdom in Hk as [? Hk]. congruence.
  - intros k. rewrite elem_of_app, list_elem_of_singleton, Hdom.
    destruct (decide (k = key)) as [->|Hne].
    + rewrite lookup_insert_eq. split; eauto.
    + rewrite lookup_insert_ne by done. split; [|by left].
      by intros [?|?].
Qed.

Lemma registerAll_consistent regs : ∀ fm,
  NoDup (focusable fm) ∧
  (∀ k, k ∈ focusable fm ↔ is_Some (focusMap fm !! k)) →
  NoDup (focusable (registerAll regs fm)) ∧
  (∀ k, k ∈ focusable (registerAll regs fm)
        ↔ is_Some (focusMap (registerAll regs fm) !! k)).
Proof.
  induction regs as [|[k c] regs IH]; intros fm Hc; [done|].
  unfold registerAll in *. simpl. by apply IH, Register_consistent.
Qed.

Lemma Reset_consistent fm :
  NoDup (focusable (Reset fm)) ∧
  (∀ k, k ∈ focusable (Reset fm) ↔ is_Some (focusMap (Reset fm) !! k)).
Proof.
  split; simpl; [constructor|].
  intros k. rewrite lookup_empty. split.
  - by intros ?%not_elem_of_nil.
  - by intros [? ?].
Qed.

Lemma registerAll_focusMap regs : ∀ fm k,
  focusMap (registerAll regs fm) !! k =
    match focusMap fm !! k with
    | Some c => Some c
    | None => (list_to_map regs : gmap string ctxRef) !! k
    end.
Proof.
  induction regs as [|[k0 c0] regs IH]; intros fm k.
  - simpl. rewrite lookup_empty. by destruct (focusMap fm !! k).
  - unfold registerAll in *. simpl. rewrite IH. unfold Register.
    destruct (focusMap fm !! k0) eqn:E0.
    + destruct (focusMap fm !! k) eqn:Ek; [done|].
      rewrite lookup_insert_ne; [done|]. congruence.
    + simpl. destruct (decide (k0 = k)) as [->|Hne].
      * rewrite !lookup_insert_eq. by rewrite E0.
      * by rewrite !lookup_insert_ne.
Qed.

(** The registry after a render pass: the list has every key that the
    pass registered, once, the map gives each key the context of its first
    registration, and list and map have the same keys, whatever the
    registry held before the pass. *)
Theorem rebuild_registry (fm : FocusManager) (regs : list (string * ctxRef)) :
  NoDup (focusable (rebuild regs fm)) ∧
  (∀ k, k ∈ focusable (rebuild regs fm) ↔ k ∈ regs.*1) ∧
  focusMap (rebuild regs fm) = list_to_map regs.
Proof.
  destruct (registerAll_consistent regs (Reset fm) (Reset_consistent fm))
    as [Hnd Hdom].
  assert (Hmap : focusMap (rebuild regs fm) = list_to_map regs).
  { apply map_eq. intros k. unfold rebuild. rewrite registerAll_focusMap.
    simpl. by rewrite lookup_empty. }
  split; [done|]. split; [|done].
  intros k. unfold rebuild. rewrite Hdom.
  fold (rebuild regs fm). rewrite Hmap.
  rewrite <- not_eq_None_Some, <- not_elem_of_list_to_map.
  split; [apply dec_stable|]. by intros ? ?.
Qed.

(** The index that the search loop of [Next] and [Prev] finds. *)
Lemma indexFrom_lookup l : ∀ (i : nat) (base : Z) k,
  NoDup l → l !! i = Some k →
  indexFrom base k l = (base + Z.of_nat i)%Z.
Proof.
  induction l as [|k0 l IH]; intros i base k Hnd Hi; [done|].
  apply NoDup_cons in Hnd as [Hnotin Hnd]. simpl.
  destruct i as [|i]; simpl in Hi.
  - injection Hi as ->. rewrite decide_True by done. lia.
  - destruct (decide (k0 = k)) as [->|Hne].
    + exfalso. apply Hnotin. by eapply list_elem_of_lookup_2.
    + rewrite (IH i (base + 1)%Z k Hnd Hi). lia.
Qed.

Lemma indexFrom_absent l : ∀ (base : Z) k,
  k ∉ l → indexFrom base k l = (-1)%Z.
Proof.
  induction l as [|k0 l IH]; intros base k Hk; [done|]. simpl.
  apply not_elem_of_cons in Hk as [Hne Hk].
  rewrite decide_False by done. by apply IH.
Qed.

Lemma Next_steps (fm : FocusManager) :
  NoDup (focusable fm) →
  (∀ i, focusable fm !! i = Some (currentKey fm) →
     focusable fm !! (S i `mod` length (focusable fm))%nat
     = Some (currentKey (Next fm))) ∧
  (currentKey fm ∉ focusable fm → focusable fm ≠ [] →
     head (focusable fm) = Some (currentKey (Next fm))) ∧
  focusable (Next fm) = focusable fm.
Proof.
  intros Hnd. split; [|split].
  - intros i Hi. pose proof (lookup_lt_Some _ _ _ Hi) as Hlt.
    unfold Next. destruct (focusable fm) as [|k0 l] eqn:El; [done|].
    rewrite <- El in *. simpl.
    rewrite (indexFrom_lookup _ i 0 _ Hnd Hi).
    replace (0 + Z.of_nat i + 1)%Z with (Z.of_nat (S i)) by lia.
    rewrite Z.rem_mod_nonneg by lia.
    rewrite <- Nat2Z.inj_mod, Nat2Z.id.
    destruct (focusable fm !! (S i `mod` length (focusable fm))%nat) eqn:E;
      [done|].
    apply lookup_ge_None in E.
    pose proof (Nat.mod_upper_bound (S i) (length (focusable fm))). lia.
  - intros Hnot Hne. unfold Next.
    destruct (focusable fm) as [|k0 l] eqn:El; [done|].
    rewrite <- El in *. simpl.
    rewrite (indexFrom_absent _ 0 _ Hnot).
    change ((-1 + 1) `rem` Z.of_nat (length (focusable fm)))%Z with 0%Z.
    by rewrite El.
  - unfold Next. by destruct (focusable fm) eqn:E.
Qed.

Lemma Prev_steps (fm : FocusManager) :
  NoDup (focusable fm) →
  (∀ i, focusable fm !! i = Some (currentKey fm) →
     focusable fm !! ((i + length (focusable fm) - 1) `mod` length (focusable fm))%nat
     = Some (currentKey (Prev fm))) ∧
  (currentKey fm ∉ focusable fm → focusable fm ≠ [] →
     last (focusable fm) = Some (currentKey (Prev fm))) ∧
  focusable (Prev fm) = focusable fm.
Proof.
  intros Hnd. split; [|split].
  - intros i Hi. pose proof (lookup_lt_Some _ _ _ Hi) as Hlt.
    unfold Prev. destruct (focusable fm) as [|k0 l] eqn:El; [done|].
    rewrite <- El in *. simpl.
    rewrite (indexFrom_lookup _ i 0 _ Hnd Hi).
    set (n := length (focusable fm)) in *.
    destruct i as [|i].
    + replace ((0 + n - 1) `mod` n)%nat with (n - 1)%nat
        by (symmetry; apply Nat.mod_small; lia).
      rewrite (proj2 (Z.ltb_lt _ _)) by lia.
      replace (Z.to_nat (Z.of_nat n - 1)) with (n - 1)%nat by lia.
      destruct (focusable fm !! (n - 1)%nat) eqn:E; [done|].
      apply lookup_ge_None in E. lia.
    + replace ((S i + n - 1) `mod` n)%nat with i.
      2:{ replace (S i + n - 1)%nat with (i + 1 * n)%nat by lia.
          rewrite Nat.Div0.mod_add. symmetry. apply Nat.mod_small. lia. }
      rewrite (proj2 (Z.ltb_ge _ _)) by lia.
      replace (Z.to_nat (0 + Z.of_nat (S i) - 1)) with i by lia.
      destruct (focusable fm !! i) eqn:E; [done|].
      apply lookup_ge_None in E. lia.
  - intros Hnot Hne. unfold Prev.
    destruct (focusable fm) as [|k0 l] eqn:El; [done|].
    rewrite <- El in *. simpl.
    rewrite (indexFrom_absent _ 0 _ Hnot). simpl.
    replace (Z.to_nat (Z.of_nat (length (focusable fm)) - 1))
      with (length (focusable fm) - 1)%nat by lia.
    rewrite last_lookup.
    replace (Init.Nat.pred (length (focusable fm)))
      with (length (focusable fm) - 1)%nat by lia.
    destruct (focusable fm !! (length (focusable fm) - 1)%nat) eqn:E; [done|].
    apply lookup_ge_None in E. rewrite El in E. simpl in E. lia.
  - unfold Prev. by destruct (focusable fm) eqn:E.
Qed.

(** [Next] moves the focus to the key that follows the current one in the
    order of registration, and from the last key to the first; when the
    current key is not registered it moves to the first key. *)
Theorem Next_cycles (fm : FocusManager) :
  NoDup (focusable fm) →
  (∀ i, focusable fm !! i = Some (currentKey fm) →
     focusable fm !! (S i `mod` length (focusable fm))%nat
     = Some (currentKey (Next fm))) ∧
  (currentKey fm ∉ focusable fm → focusable fm ≠ [] →
     head (focusable fm) = Some (currentKey (Next fm))) ∧
  focusable (Next fm) = focusable fm.
Proof. apply Next_steps. Qed.

(** [Prev] moves the focus to the key before the current one, and from
    the first key to the last; when the current key is not registered it
    moves to the last key. *)
Theorem Prev_cycles (fm : FocusManager) :
  NoDup (focusable fm) →
  (∀ i, focusable fm !! i = Some (currentKey fm) →
     focusable fm !! ((i + length (focusable fm) - 1) `mod` length (focusable fm))%nat
     = Some (currentKey (Prev fm))) ∧
  (currentKey fm ∉ focusable fm → focusable fm ≠ [] →
     last (focusable fm) = Some (currentKey (Prev fm))) ∧
  focusable (Prev fm) = focusable fm.
Proof. apply Prev_steps. Qed.

(** [Next] and [Prev] undo each other on a registered current key. *)
Theorem Next_Prev_round_trip (fm : FocusManager) :
  NoDup (focusable fm) → currentKey fm ∈ focusable fm →
  currentKey (Prev (Next fm)) = currentKey fm ∧
  currentKey (Next (Prev fm)) = currentKey fm.
Proof.
  intros Hnd Hin. apply list_elem_of_lookup in Hin as [i Hi].
  pose proof (lookup_lt_Some _ _ _ Hi) as Hlt.
  set (n := length (focusable fm)) in *.
  split.
  - destruct (Next_steps fm Hnd) as (Hnext & _ & Hl).
    specialize (Hnext i Hi). fold n in Hnext.
    assert (Hnd' : NoDup (focusable (Next fm))) by (by rewrite Hl).
    destruct (Prev_steps (Next fm) Hnd') as (Hprev & _ & _).
    rewrite Hl in Hprev. fold n in Hprev.
    specialize (Hprev _ Hnext).
    replace ((S i `mod` n + n - 1) `mod` n)%nat with i in Hprev; [congruence|].
    destruct (decide (S i = n)) as [Heq|Hne].
    + rewrite Heq, Nat.Div0.mod_same. simpl.
      symmetry. rewrite Nat.mod_small; lia.
    + rewrite (Nat.mod_small (S i) n) by lia.
      replace (S i + n - 1)%nat with (i + 1 * n)%nat by lia.
      rewrite Nat.Div0.mod_add. symmetry. apply Nat.mod_small. lia.
  - destruct (Prev_steps fm Hnd) as (Hprev & _ & Hl).
    specialize (Hprev i Hi). fold n in Hprev.
    assert (Hnd' : NoDup (focusable (Prev fm))) by (by rewrite Hl).
    destruct (Next_steps (Prev fm) Hnd') as (Hnext & _ & _).
    rewrite Hl in Hnext. fold n in Hnext.
    specialize (Hnext _ Hprev).
    replace (S ((i + n - 1) `mod` n) `mod` n)%nat with i in Hnext;
      [congruence|].
    destruct i as [|i].
    + rewrite (Nat.mod_small (0 + n - 1) n) by lia.
      replace (S (0 + n - 1)) with n by lia. by rewrite Nat.Div0.mod_same.
    + replace (S i + n - 1)%nat with (i + 1 * n)%nat by lia.
      rewrite Nat.Div0.mod_add, (Nat.mod_small i n) by lia.
      symmetry. apply Nat.mod_small. lia.
Qed.

Lemma filter_absent (key : string) (l : list string) :
  key ∉ l → filter (fun k => k ≠ key) l = l.
Proof.
  induction l as [|k l IH]; intros Hk; [done|].
  apply not_elem_of_cons in Hk as [Hne Hk].
  rewrite filter_cons_True by done. by rewrite IH.
Qed.

Lemma removeFirst_filter key (l : list string) :
  NoDup l → removeFirst key l = filter (fun k => k ≠ key) l.
Proof.
  induction l as [|k l IH]; intros Hnd; [done|].
  apply NoDup_cons in Hnd as [Hnotin Hnd]. simpl. rewrite filter_cons.
  destruct (decide (k = key)) as [->|Hne].
  - rewrite decide_False by (by intros H; apply H).
    symmetry. by apply filter_absent.
  - rewrite decide_True by done. by rewrite IH.
Qed.

(** [Unregister] takes the key out of the list and of the map and leaves
    the other keys in their order; the focus moves, to the first key that
    is left (or to none), exactly when the key had it. *)
Theorem Unregister_removes (key : string) (fm : FocusManager) :
  NoDup (focusable fm) →
  focusable (Unregister key fm) = filter (fun k => k ≠ key) (focusable fm) ∧
  (key ∉ focusable (Unregister key fm)) ∧
  focusMap (Unregister key fm) !! key = None ∧
  (∀ k, k ≠ key → focusMap (Unregister key fm) !! k = focusMap fm !! k) ∧
  currentKey (Unregister key fm)
  = if decide (currentKey fm = key)
    then default "" (head (filter (fun k => k ≠ key) (focusable fm)))
    else currentKey fm.
Proof.
  intros Hnd. unfold Unregister. simpl.
  rewrite (removeFirst_filter key _ Hnd).
  split; [done|]. split; [|split; [|split]].
  - intros Hin. apply list_elem_of_filter in Hin as [Hne _]. by apply Hne.
  - apply lookup_delete_eq.
  - intros k Hne. by apply lookup_delete_ne.
  - destruct (decide (currentKey fm = key)); [|done].
    by destruct (filter _ _).
Qed.

Lemma abc_NoDup : NoDup (focusable FocusExamples.abc).
Proof. apply (registerAll_consistent _ _ (Reset_consistent newFocusManager)). Defined.

Lemma Next_cycles_witness :
  currentKey FocusExamples.abc = "A" ∧
  focusable FocusExamples.abc !! 1%nat
  = Some (currentKey (Next FocusExamples.abc)) ∧
  focusable FocusExamples.abc !! 0%nat
  = Some (currentKey (Next (SetFocus "C" FocusExamples.abc))).
Proof.
  split; [reflexivity|]. split.
  - exact (proj1 (Next_cycles FocusExamples.abc abc_NoDup) 0%nat eq_refl).
  - exact (proj1 (Next_cycles (SetFocus "C" FocusExamples.abc) abc_NoDup)
             2%nat eq_refl).
Defined.

Lemma Prev_cycles_witness :
  focusable FocusExamples.abc !! 2%nat
  = Some (currentKey (Prev FocusExamples.abc)).
Proof.
  exact (proj1 (Prev_cycles FocusExamples.abc abc_NoDup) 0%nat eq_refl).
Defined.

Lemma Next_Prev_round_trip_witness :
  currentKey (Prev (Next FocusExamples.abc)) = "A" ∧
  currentKey (Next (Prev FocusExamples.abc)) = "A".
Proof.
  apply (Next_Prev_round_trip FocusExamples.abc abc_NoDup).
  apply list_elem_of_In. left. reflexivity.
Defined.

Lemma Unregister_removes_witness :
  focusable (Unregister "A" FocusExamples.abc) = ["B"; "C"] ∧
  currentKey (Unregister "A" FocusExamples.abc) = "B".
Proof.
  destruct (Unregister_removes "A" FocusExamples.abc abc_NoDup)
    as (Hl & _ & _ & _ & Hc).
  split; [rewrite Hl|rewrite Hc]; reflexivity.
Defined.

End FocusMore.

(* ===================================================================== *)
(** ** More on the hooks runtime *)
(* ===================================================================== *)

Module HooksMore.
Import Hooks.

Section WithValues.

Variable any : Type.
Variable DeepEqual : any → any → bool.
Variable W : Type.

(** State persistence: after a write through a handle that holds the
    value of its cell, [Use] of the same key returns a handle with the
    value of the writing handle, whatever initial value it is given, and
    changes nothing. *)
Theorem Use_after_State_Set (s : State any) (v initial : any)
    (h : Heap any W) :
  getState (key s) (h_ctx h) = Some (Val s) →
  let '(s', h') := State_Set DeepEqual s v h in
  Val s' = (if DeepEqual (Val s) v then Val s else v) ∧
  Use (key s) initial h' = ({| Val := Val s'; key := key s |}, h').
Proof.
  intros Hsync. unfold State_Set.
  destruct (DeepEqual (Val s) v) eqn:E.
  - split; [done|]. unfold Use. by rewrite Hsync.
  - split; [done|]. unfold Use.
    rewrite HooksFacts.getState_Refresh_any. unfold getState at 1. simpl.
    by rewrite lookup_insert_eq.
Qed.

(** One pass over a slot that ran with the same dependencies changes
    neither the program state nor the slot. *)
Lemma effectPass_same fn ds (c : componentContext any W) w slot :
  getEffectSlot 0 c = Some slot → ran slot = true →
  depsEqual DeepEqual (deps slot) ds = true →
  (Renders.effectPass any DeepEqual W fn ds (c, w)).2 = w ∧
  getEffectSlot 0 (Renders.effectPass any DeepEqual W fn ds (c, w)).1
  = Some slot.
Proof.
  intros Hslot Hran Heq. unfold Renders.effectPass. simpl.
  pose proof (HooksFacts.UseEffect_same any DeepEqual W fn ds (reset c) w slot
                Hslot Hran Heq) as ->.
  done.
Qed.

(** An effect whose dependencies do not change runs once: after any
    number of renders of a record that did not have the slot, the program
    state is the one after a single run of the body on the first render,
    and the slot holds the cleanup that this run returned. *)
Theorem effect_runs_once (fn : effectFn W) (ds : list any)
    (c : componentContext any W) (w : W) (n : nat) :
  getEffectSlot 0 c = None →
  depsEqual DeepEqual ds ds = true →
  let cw := Renders.effectPasses any DeepEqual W (S n) fn ds (c, w) in
  cw.2 = (fn w).2 ∧
  getEffectSlot 0 cw.1
  = Some {| deps := ds; cleanup := (fn w).1; ran := true |}.
Proof.
  intros Hnone Hrefl. induction n as [|n IH].
  - unfold Renders.effectPasses, Renders.effectPass. simpl.
    rewrite (HooksFacts.UseEffect_first any DeepEqual W fn ds (reset c) w)
      by done.
    split; [done|]. unfold getEffectSlot, setEffectSlot. simpl.
    apply lookup_insert_eq.
  - destruct IH as [Hw Hslot].
    change (Renders.effectPasses any DeepEqual W (S (S n)) fn ds (c, w))
      with (Renders.effectPass any DeepEqual W fn ds
              (Renders.effectPasses any DeepEqual W (S n) fn ds (c, w))).
    destruct (Renders.effectPasses any DeepEqual W (S n) fn ds (c, w))
      as [c' w']. simpl in Hw, Hslot. subst w'.
    by apply (effectPass_same fn ds c' _ _ Hslot).
Qed.

(** [UseMemo] on the slot it addresses: without a slot, or with
    dependencies that are not equal to the stored ones, the function runs
    once, its value is returned and stored with the new dependencies; with
    equal dependencies the stored value is returned, the function does not
    run and the slot stays. *)
Theorem UseMemo_gating (fn : W → any * W) (ds : list any)
    (c : Memo.componentContext any) (w : W) :
  let k := Memo.memoIndex c in
  let '(v, c', w') := Memo.UseMemo DeepEqual fn ds c w in
  Memo.memoIndex c' = (k + 1)%Z ∧
  (Memo.getMemoSlot k c = None →
     v = (fn w).1 ∧ w' = (fn w).2 ∧
     Memo.getMemoSlot k c' = Some {| Memo.deps := ds; Memo.value := (fn w).1 |}) ∧
  (∀ slot, Memo.getMemoSlot k c = Some slot →
     depsEqual DeepEqual (Memo.deps slot) ds = true →
     v = Memo.value slot ∧ w' = w ∧ Memo.getMemoSlot k c' = Some slot) ∧
  (∀ slot, Memo.getMemoSlot k c = Some slot →
     depsEqual DeepEqual (Memo.deps slot) ds = false →
     v = (fn w).1 ∧ w' = (fn w).2 ∧
     Memo.getMemoSlot k c' = Some {| Memo.deps := ds; Memo.value := (fn w).1 |}).
Proof.
  intros k. subst k.
  unfold Memo.UseMemo, Memo.nextMemoKey, Memo.getMemoSlot, Memo.setMemoSlot.
  cbn [Memo.memos Memo.memoIndex].
  destruct (Memo.memos c !! Memo.memoIndex c) as [slot|] eqn:E.
  - destruct (depsEqual DeepEqual (Memo.deps slot) ds) eqn:Hd;
      cbn [negb].
    + cbn [Memo.memos Memo.memoIndex]. split; [done|]. split; [done|]. split.
      * intros ? [= <-] _. by rewrite E.
      * intros ? [= <-]. congruence.
    + destruct (fn w) as [v w'] eqn:Ef. cbn [fst snd Memo.memos Memo.memoIndex].
      split; [done|]. split; [done|]. split.
      * intros ? [= <-]. congruence.
      * intros ? [= <-] _. by rewrite lookup_insert_eq.
  - destruct (fn w) as [v w'] eqn:Ef. cbn [fst snd Memo.memos Memo.memoIndex].
    split; [done|]. split.
    + intros _. by rewrite lookup_insert_eq.
    + split; by intros ? [=].
Qed.

End WithValues.

(** [TestUse]: the cell [count] holds 10, the handle writes 20, and a
    later [Use] with the initial value 10 gives 20. *)
Lemma Use_after_State_Set_witness :
  let s := {| Val := 10%Z; key := "count" |} in
  let h := {| h_ctx := setState "count" 10%Z (newComponentContext Z unit true);
              h_runtime := {| refreshChan := false |} |} in
  Val (Use "count" 10%Z (State_Set Z.eqb s 20%Z h).2).1 = 20%Z.
Proof.
  intros s h.
  pose proof (Use_after_State_Set Z Z.eqb unit s 20%Z 10%Z h eq_refl) as H.
  destruct (State_Set Z.eqb s 20%Z h) as [s' h'].
  destruct H as [Hv HU]. change (key s) with "count" in HU.
  cbn [snd]. rewrite HU. exact Hv.
Defined.

(** [TestUseEffect], with three renders on the same dependency. *)
Lemma effect_runs_once_witness :
  (Renders.effectPasses string depString (nat * nat) 3 countingEffect ["dep1"]
     (newComponentContext string (nat * nat) true, (0, 0)%nat)).2 = (1, 0)%nat.
Proof.
  exact (proj1 (effect_runs_once string depString (nat * nat) countingEffect
                  ["dep1"] (newComponentContext string (nat * nat) true)
                  (0, 0)%nat 2 eq_refl eq_refl)).
Defined.

(** [TestUseMemo]: the dependency [dep1] twice, then [dep2]. *)
Lemma UseMemo_gating_witness :
  let c0 := {| Memo.memos := ∅; Memo.memoIndex := 0 |} in
  let dep1 := [Memo.VString "dep1"] in
  let dep2 := [Memo.VString "dep2"] in
  let '(v1, c1, w1) := Memo.UseMemo Memo.testEqual Memo.countingMemo dep1 c0 0%nat in
  let '(v2, c2, w2) :=
    Memo.UseMemo Memo.testEqual Memo.countingMemo dep1 (Memo.reset c1) w1 in
  let '(v3, c3, w3) :=
    Memo.UseMemo Memo.testEqual Memo.countingMemo dep2 (Memo.reset c2) w2 in
  (v1, w1) = (Memo.VInt 1, 1%nat) ∧ (v2, w2) = (Memo.VInt 1, 1%nat) ∧
  (v3, w3) = (Memo.VInt 2, 2%nat).
Proof.
  intros c0 dep1 dep2.
  pose proof (UseMemo_gating Memo.testValue Memo.testEqual nat
                Memo.countingMemo dep1 c0 0%nat) as H1.
  destruct (Memo.UseMemo Memo.testEqual Memo.countingMemo dep1 c0 0%nat)
    as [[v1 c1] w1].
  destruct H1 as (_ & Hfirst & _). destruct (Hfirst eq_refl) as (Hv1 & Hw1 & Hs1).
  simpl in Hv1, Hw1. subst v1 w1.
  pose proof (UseMemo_gating Memo.testValue Memo.testEqual nat
                Memo.countingMemo dep1 (Memo.reset c1) 1%nat) as H2.
  destruct (Memo.UseMemo Memo.testEqual Memo.countingMemo dep1 (Memo.reset c1)
              1%nat) as [[v2 c2] w2].
  destruct H2 as (_ & _ & Hsame & _).
  destruct (Hsame _ Hs1 eq_refl) as (Hv2 & Hw2 & Hs2). simpl in Hv2. subst v2 w2.
  pose proof (UseMemo_gating Memo.testValue Memo.testEqual nat
                Memo.countingMemo dep2 (Memo.reset c2) 1%nat) as H3.
  destruct (Memo.UseMemo Memo.testEqual Memo.countingMemo dep2 (Memo.reset c2)
              1%nat) as [[v3 c3] w3].
  destruct H3 as (_ & _ & _ & Hdiff).
  destruct (Hdiff _ Hs2 eq_refl) as (Hv3 & Hw3 & _). simpl in Hv3, Hw3.
  subst v3 w3. done.
Defined.

Section Children.

Variable any : Type.
Variable W : Type.

Implicit Types (p : Identity.parent any W).

Lemma Child_key key index p :
  (Identity.Child key index p).1 = Identity.fullKey key index.
Proof.
  unfold Identity.Child.
  by destruct (Identity.children p !! Identity.fullKey key index).
Qed.

(** A call of [Child], for any key, keeps the cells of every record that
    exists. *)
Lemma Child_keeps_state key index p fk (c : componentContext any W) :
  Identity.children p !! fk = Some c →
  ∃ c', Identity.children (Identity.Child key index p).2 !! fk = Some c' ∧
        states c' = states c ∧ effects c' = effects c.
Proof.
  intros Hc. unfold Identity.Child.
  destruct (decide (Identity.fullKey key index = fk)) as [<-|Hne].
  - rewrite Hc. simpl. rewrite lookup_insert_eq. eauto.
  - destruct (Identity.children p !! Identity.fullKey key index); simpl;
      rewrite lookup_insert_ne by done; eauto.
Qed.

Lemma Children_keep_state calls : ∀ p fk (c : componentContext any W),
  Identity.children p !! fk = Some c →
  ∃ c', Identity.children
          (fold_left (fun p call => (Identity.Child call.1 call.2 p).2) calls p)
          !! fk = Some c' ∧
        states c' = states c ∧ effects c' = effects c.
Proof.
  induction calls as [|[k i] calls IH]; intros p fk c Hc; simpl; [eauto|].
  destruct (Child_keeps_state k i p fk c Hc) as (c1 & Hc1 & Hs1 & He1).
  destruct (IH _ fk c1 Hc1) as (c2 & Hc2 & Hs2 & He2).
  exists c2. split; [done|]. split; congruence.
Qed.

(** The record of a child is made on the first call of [Child] for its
    key and is the same one afterwards: a value written to one of its
    cells is still there after any further calls of [Child] on the parent,
    for this key or for others, in any order. *)
Theorem Child_state_survives (key : string) (index : list Z)
    (k : string) (v : any) p (calls : list (string * list Z)) :
  let '(child, p1) := Identity.Child key index p in
  let p2 := Identity.setChildState child k v p1 in
  let p3 := fold_left (fun p call => (Identity.Child call.1 call.2 p).2)
              calls p2 in
  let '(child', p4) := Identity.Child key index p3 in
  child' = child ∧
  ∃ c, Identity.children p4 !! child = Some c ∧ getState k c = Some v ∧
       effectIndex c = 0%Z.
Proof.
  pose proof (Child_key key index p) as Hkey.
  destruct (Identity.Child key index p) as [child p1] eqn:E1. simpl in Hkey.
  assert (H1 : is_Some (Identity.children p1 !! child)).
  { revert E1. unfold Identity.Child. rewrite <- Hkey.
    destruct (Identity.children p !! child); intros [= <-]; simpl;
      rewrite lookup_insert_eq; eauto. }
  destruct H1 as [c1 Hc1]. unfold Identity.setChildState. rewrite Hc1.
  match goal with
  | |- context [fold_left ?f calls ?p2] =>
      destruct (Children_keep_state calls p2 child (setState k v c1))
        as (c3 & Hc3 & Hs3 & _); [simpl; apply lookup_insert_eq|];
      set (p3 := fold_left f calls p2) in *
  end.
  pose proof (Child_key key index p3) as Hkey'.
  destruct (Identity.Child key index p3) as [child' p4] eqn:E4.
  simpl in Hkey'. split; [congruence|].
  revert E4. unfold Identity.Child. rewrite <- Hkey, Hc3.
  intros [= _ <-]. simpl. rewrite lookup_insert_eq.
  eexists. split; [done|]. split; [|done].
  unfold getState. simpl. rewrite Hs3. simpl. apply lookup_insert_eq.
Qed.

End Children.

Lemma string_app_inj_r (s1 s2 : string) (a : Ascii.ascii) :
  s1 +:+ String a "" = s2 +:+ String a "" → s1 = s2.
Proof.
  revert s2. induction s1 as [|c1 s1 IH]; intros [|c2 s2]; simpl; try done.
  - intros [= _ H]. by destruct s2.
  - intros [= _ H]. by destruct s1.
  - intros [= -> H]. f_equal. by apply IH.
Qed.

(** Children with the same key and different indices have different
    records, and a key that spells an index is the record of that index:
    [Child("item[1]")] and [Child("item", 1)] are one record. *)
Theorem fullKey_index (key : string) (i j : Z) :
  (Identity.fullKey key [i] = Identity.fullKey key [j] → i = j) ∧
  Identity.fullKey (key +:+ "[" +:+ pretty i +:+ "]") []
  = Identity.fullKey key [i].
Proof.
  split; [|done]. unfold Identity.fullKey. intros H.
  apply String.app_inj in H. injection H as H.
  apply string_app_inj_r in H. by apply (inj pretty).
Qed.

Lemma fullKey_index_witness :
  Identity.fullKey "item" [1%Z] = "item[1]" ∧
  Identity.fullKey "item" [1%Z] ≠ Identity.fullKey "item" [2%Z].
Proof.
  split; [reflexivity|].
  intros H. apply (proj1 (fullKey_index "item" 1 2)) in H. discriminate H.
Defined.

End HooksMore.

(** ** More properties of the layout engine *)

Module LayoutMore.
Import Layout Cells.

Local Open Scope Z_scope.

Lemma Contains_spec x y width height col row :
  Contains (mkRect x y width height) col row = true ↔
  x <= col < x + width ∧ y <= row < y + height.
Proof.
  unfold Contains. simpl.
  rewrite !andb_true_iff, !bool_decide_eq_true. lia.
Qed.

(** [drawBackground] paints every cell of the rectangle it is given, with
    a space in the background colour of the style, and no other cell. *)
Theorem drawBackground_cells (style : Style.t) (x y width height : Z) (op : Op) :
  op ∈ drawBackground style x y width height ↔
  ∃ col row,
    Contains (mkRect x y width height) col row = true ∧
    op = SetContent col row 32 []
           (Background (colorToTcell (Style.bg style)) StyleDefault).
Proof.
  unfold drawBackground. rewrite RuntimeLoopFacts.elem_of_forRange. split.
  - intros (row & Hrow & Hop).
    apply RuntimeLoopFacts.elem_of_forRange in Hop as (col & Hcol & Hop).
    apply list_elem_of_singleton in Hop. exists col, row.
    rewrite Contains_spec. split; [lia|done].
  - intros (col & row & Hin & ->). apply Contains_spec in Hin.
    exists row. split; [lia|].
    apply RuntimeLoopFacts.elem_of_forRange. exists col. split; [lia|].
    by apply list_elem_of_singleton.
Qed.

(** [renderBorder], for a rectangle of at least one column and one row,
    draws on the cells of the rectangle that lie on its first or last
    column or row, on all of them and on no other cell. *)
Theorem renderBorder_perimeter (style : Style.t) (x y width height : Z)
    (col row : Z) :
  1 <= width → 1 <= height →
  (col, row) ∈ position <$> renderBorder style x y width height ↔
  Contains (mkRect x y width height) col row = true ∧
  (col = x ∨ col = x + width - 1 ∨ row = y ∨ row = y + height - 1).
Proof.
  intros Hw Hh. rewrite Contains_spec, list_elem_of_fmap.
  unfold renderBorder. split.
  - intros (op & Hpos & Hin).
    rewrite !elem_of_app, !elem_of_cons, !RuntimeLoopFacts.elem_of_forRange in Hin.
    destruct Hin as [[->|[->|[->|[->|Hnil]]]]|[(i & Hi & Hin)|(i & Hi & Hin)]];
      try (by apply not_elem_of_nil in Hnil);
      try (rewrite !elem_of_cons in Hin;
           destruct Hin as [->|[->|Hnil]];
           [| |by apply not_elem_of_nil in Hnil]);
      simpl in Hpos; injection Hpos as -> ->; lia.
  - intros (Hin & Hedge).
    destruct (decide (row = y)) as [->|Hry];
      [|destruct (decide (row = y + height - 1)) as [->|Hrb]].
    + destruct (decide (col = x)) as [->|Hcx];
        [|destruct (decide (col = x + width - 1)) as [->|Hcr]].
      * eexists. split; [|apply elem_of_app; left; apply list_elem_of_here].
        done.
      * eexists. split;
          [|apply elem_of_app; left; apply list_elem_of_further,
              list_elem_of_here].
        done.
      * eexists. split;
          [|apply elem_of_app; right; apply elem_of_app; left;
            apply RuntimeLoopFacts.elem_of_forRange; exists col;
            split; [lia|apply list_elem_of_here]].
        done.
    + destruct (decide (col = x)) as [->|Hcx];
        [|destruct (decide (col = x + width - 1)) as [->|Hcr]].
      * eexists. split;
          [|apply elem_of_app; left;
            do 2 apply list_elem_of_further; apply list_elem_of_here].
        done.
      * eexists. split;
          [|apply elem_of_app; left;
            do 3 apply list_elem_of_further; apply list_elem_of_here].
        done.
      * eexists. split;
          [|apply elem_of_app; right; apply elem_of_app; left;
            apply RuntimeLoopFacts.elem_of_forRange; exists col;
            split; [lia|apply list_elem_of_further, list_elem_of_here]].
        done.
    + destruct (decide (col = x)) as [->|Hcx].
      * eexists. split;
          [|apply elem_of_app; right; apply elem_of_app; right;
            apply RuntimeLoopFacts.elem_of_forRange; exists row;
            split; [lia|apply list_elem_of_here]].
        done.
      * assert (col = x + width - 1) as -> by lia.
        eexists. split;
          [|apply elem_of_app; right; apply elem_of_app; right;
            apply RuntimeLoopFacts.elem_of_forRange; exists row;
            split; [lia|apply list_elem_of_further, list_elem_of_here]].
        done.
Qed.

Section WithRuneWidth.

Variable RuneWidth : rune → Z.
Variable StringWidth : list rune → Z.




Lemma hstackLoop_ge (T : Type)
    (rend : Node → Z → Z → Z → Z → T → Z * list Op * T)
    x y width height gap flexUnitWidth len children :
  ∀ i currentX maxHeight t,
  maxHeight <=
  (hstackLoop RuneWidth StringWidth T rend x y width height gap flexUnitWidth
     len children i currentX maxHeight t).1.1.
Proof.
  induction children as [|[child|] cs IH]; intros i currentX maxHeight t;
    simpl; [lia| |apply IH].
  case_bool_decide; [simpl; lia|].
  destruct (rend child _ _ _ _ t) as [[usedHeight ops] t'].
  match goal with
  | |- context [hstackLoop _ _ _ _ _ _ _ _ _ _ _ cs ?i' ?cx ?mh ?t0] =>
      specialize (IH i' cx mh t0);
      destruct (hstackLoop RuneWidth StringWidth T rend x y width height gap
                  flexUnitWidth len cs i' cx mh t0) as [[total ops'] t'']
  end.
  simpl in *. case_bool_decide; lia.
Qed.

(** A horizontal stack with a child that is not [nil] reports at least
    one row, whatever it is granted, zero rows or a negative width
    included; a stack without such a child reports none. *)
Theorem hstack_reports_a_row (children : list (option Node)) (style : Style.t)
    (gap : Z) (justify : Align) (x y width height : Z) (wd : World) :
  (nonNil children ≠ [] →
   1 <= (render RuneWidth StringWidth (hstackNode children style gap justify)
           x y width height wd).1.1) ∧
  (nonNil children = [] →
   render RuneWidth StringWidth (hstackNode children style gap justify)
     x y width height wd = (0, [], wd)).
Proof.
  simpl. unfold hstackRender. split; intros Hnil.
  - rewrite bool_decide_eq_false_2 by (by destruct children).
    rewrite bool_decide_eq_false_2 by (by destruct (nonNil children)).
    destruct (hstackFirstPass _ _ _ _) as [fixedWidth totalFlex].
    match goal with
    | |- context [hstackLoop _ _ _ ?r ?a ?b ?c ?d ?e ?f ?g children ?i ?cx ?mh ?t0] =>
        pose proof (hstackLoop_ge _ r a b c d e f g children i cx mh t0) as Hge;
        destruct (hstackLoop RuneWidth StringWidth _ r a b c d e f g children
                    i cx mh t0) as [[maxHeight ops] t']
    end.
    simpl in *. case_bool_decide; lia.
  - case_bool_decide; [done|]. by rewrite Hnil.
Qed.




Section Grants.

Variable T : Type.
Variable rend : Node → Z → Z → Z → Z → T → Z * list Op * T.

Lemma vstackLoop_grants x y width height gap fu len children :
  ∀ i currentY total t log e,
    e ∈ (vstackLoop RuneWidth _ (tracing rend) x y width height gap fu len
           children i currentY total (t, log)).2.2 →
    e ∈ log ∨
    (Some e.1 ∈ children ∧ X e.2 = x ∧ W e.2 = width ∧
     Y e.2 < y + height ∧ Y e.2 + H e.2 <= y + height).
Proof.
  induction children as [|[child|] cs IH]; intros i currentY total t log e;
    simpl; [by left| |].
  2:{ intros He. destruct (IH _ _ _ _ _ _ He) as [?|(? & ?)]; [by left|].
      right. split; [by apply list_elem_of_further|done]. }
  case_bool_decide as Hy; [by left|].
  destruct (rend child x currentY width _ t) as [[used ops] t'] eqn:E. simpl.
  destruct (bool_decide (i < len - 1)); simpl;
    match goal with
    | |- context [vstackLoop _ _ (tracing rend) _ _ _ _ _ _ _ cs ?i' ?cy' ?tot' (_, ?l)] =>
        specialize (IH i' cy' tot' t' l e)
    end;
    destruct (vstackLoop _ _ (tracing rend) _ _ _ _ _ _ _ cs _ _ _ _)
      as [[a' b'] [c' l']];
    simpl in *; intros He;
    (destruct (IH He) as [Hin|(Hc & ?)];
     [|right; split; [by apply list_elem_of_further|done]]);
    (apply elem_of_app in Hin as [Hin|Hin]; [by left|]);
    apply list_elem_of_singleton in Hin as ->; right; simpl;
    (split; [apply list_elem_of_here|]);
    unfold vstackChildHeight; case_bool_decide; lia.
Qed.

(** Every child that a vertical stack renders is one of its children,
    gets the column and the width of the stack inside the padding, starts
    on a row above the bottom of the stack and is granted no more rows
    than are left down to the bottom, whatever the renders of the children
    report. *)
Theorem vstack_grants_within (children : list (option Node))
    (style : Style.t) (gap : Z) (justify : Align) (x y width height : Z)
    (t : T) (child : Node) (r : Rect) :
  (child, r) ∈ (vstackRender RuneWidth _ (tracing rend) children style gap
                  justify x y width height (t, [])).2.2 →
  let bottom := y + height - Style.paddingBottom style in
  Some child ∈ children ∧
  X r = x + Style.paddingLeft style ∧
  W r = width - (Style.paddingLeft style + Style.paddingRight style) ∧
  Y r < bottom ∧ Y r + H r <= bottom.
Proof.
  unfold vstackRender. simpl.
  repeat (case_bool_decide; simpl; try by intros ?%not_elem_of_nil).
  all: intros He; apply vstackLoop_grants in He as [Hin|Hin];
    [by apply not_elem_of_nil in Hin|]; simpl in Hin;
    destruct Hin as (? & ? & ? & ? & ?); repeat split; (done || lia).
Qed.

Lemma hstackLoop_grants x y width height gap fu len children :
  ∀ i currentX maxHeight t log e,
    e ∈ (hstackLoop RuneWidth StringWidth _ (tracing rend) x y width height
           gap fu len children i currentX maxHeight (t, log)).2.2 →
    e ∈ log ∨
    (Some e.1 ∈ children ∧ Y e.2 = y ∧ H e.2 <= height ∧
     X e.2 < x + width ∧ X e.2 + W e.2 <= x + width).
Proof.
  induction children as [|[child|] cs IH]; intros i currentX maxHeight t log e;
    simpl; [by left| |].
  2:{ intros He. destruct (IH _ _ _ _ _ _ He) as [?|(? & ?)]; [by left|].
      right. split; [by apply list_elem_of_further|done]. }
  case_bool_decide as Hx; [by left|].
  destruct (rend child currentX y _ _ t) as [[used ops] t'] eqn:E. simpl.
  match goal with
  | |- context [hstackLoop _ _ _ (tracing rend) _ _ _ _ _ _ _ cs ?i' ?cx' ?mh' (_, ?l)] =>
      specialize (IH i' cx' mh' t' l e)
  end.
  destruct (hstackLoop _ _ _ (tracing rend) _ _ _ _ _ _ _ cs _ _ _ _)
    as [[a' b'] [c' l']].
  simpl in *. intros He.
  destruct (IH He) as [Hin|(Hc & ?)];
    [|right; split; [by apply list_elem_of_further|done]].
  apply elem_of_app in Hin as [Hin|Hin]; [by left|].
  apply list_elem_of_singleton in Hin as ->. right. simpl.
  split; [apply list_elem_of_here|]. split; [done|].
  split; [|split; [lia|repeat case_bool_decide; lia]].
  destruct (flexOf child); destruct (_ && _) eqn:Hz;
    repeat case_bool_decide; try lia;
    apply andb_true_iff in Hz as [Hz _]; apply bool_decide_eq_true in Hz; lia.
Qed.

(** Every child that a horizontal stack renders is one of its children,
    gets the row of the stack and at most its height, starts on a column
    left of the right edge of the stack and is granted no more columns
    than are left up to that edge. *)
Theorem hstack_grants_within (children : list (option Node))
    (style : Style.t) (gap : Z) (justify : Align) (x y width height : Z)
    (t : T) (child : Node) (r : Rect) :
  (child, r) ∈ (hstackRender RuneWidth StringWidth _ (tracing rend) children
                  style gap justify x y width height (t, [])).2.2 →
  Some child ∈ children ∧ Y r = y ∧ H r <= height ∧
  X r < x + width ∧ X r + W r <= x + width.
Proof.
  unfold hstackRender.
  case_bool_decide; [by intros ?%not_elem_of_nil|].
  case_bool_decide; [by intros ?%not_elem_of_nil|].
  destruct (hstackFirstPass _ _ _ _) as [fixedWidth totalFlex].
  match goal with
  | |- context [hstackLoop _ _ _ ?r0 ?a ?b ?c ?d ?e ?f ?g children ?i ?cx ?mh ?t0] =>
      pose proof (hstackLoop_grants a b c d e f g children i cx mh t [] (child, r)) as Hg;
      destruct (hstackLoop RuneWidth StringWidth _ r0 a b c d e f g children
                  i cx mh t0) as [[maxHeight ops] [t' l']]
  end.
  simpl in *. intros He. destruct (Hg He) as [Hin|Hin];
    [by apply not_elem_of_nil in Hin|done].
Qed.

End Grants.

End WithRuneWidth.

Lemma clipScreen_call_shift p op0 op :
  op ∈ clipScreen_call p op0 ↔
  op = shift (offX p) (offY p) op0 ∧ drawsIn (viewport p) op = true.
Proof.
  destruct op0 as [x0 y0 m0 c0 s0|x0 y0]; simpl;
    unfold clipScreen_SetContent, clipScreen_ShowCursor;
    (destruct (_ && _) eqn:Hv;
     [rewrite list_elem_of_singleton; split; [by intros ->|by intros [-> _]]
     |split; [by intros ?%not_elem_of_nil|intros [-> Hin]]]);
    unfold drawsIn, viewport, Contains in Hin; simpl in Hin; congruence.
Qed.

(** Proxies compose: through a proxy [inner] whose screen is a proxy
    [outer] (a scroll box in a scroll box), a call reaches the screen
    exactly when, displaced by the offset of [inner], it is in the viewport
    of [inner] and, displaced by both offsets, in the viewport of [outer];
    it arrives displaced by the sum of the offsets and otherwise
    unchanged. *)
Theorem clip_nested (outer inner : clipScreen) (ops : list Op) (op : Op) :
  op ∈ throughClip outer (throughClip inner ops) ↔
  ∃ op0, op0 ∈ ops ∧
    op = shift (offX inner + offX outer) (offY inner + offY outer) op0 ∧
    drawsIn (viewport inner) (shift (offX inner) (offY inner) op0) = true ∧
    drawsIn (viewport outer) op = true.
Proof.
  rewrite LayoutFacts.elem_of_throughClip. split.
  - intros (op1 & Hop1 & Hop).
    apply LayoutFacts.elem_of_throughClip in Hop1 as (op0 & Hop0 & Hop1).
    apply clipScreen_call_shift in Hop1 as [-> Hin1].
    apply clipScreen_call_shift in Hop as [-> Hin].
    exists op0. split; [done|]. split; [|done].
    destruct op0; simpl; f_equal; lia.
  - intros (op0 & Hop0 & -> & Hin1 & Hin).
    exists (shift (offX inner) (offY inner) op0). split.
    + apply LayoutFacts.elem_of_throughClip. exists op0. split; [done|].
      by apply clipScreen_call_shift.
    + apply clipScreen_call_shift.
      assert (shift (offX outer) (offY outer)
                (shift (offX inner) (offY inner) op0)
              = shift (offX inner + offX outer) (offY inner + offY outer) op0)
        as Heq by (destruct op0; simpl; f_equal; lia).
      rewrite Heq. done.
Qed.


(** A stack of one spacer, granted no row, reports one. *)
Lemma hstack_reports_a_row_witness :
  1 <= (render exampleRuneWidth exampleStringWidth
          (hstackNode [Some spacerNode] defaultStyle 0 AlignLeft)
          0 0 10 0 exampleWorld).1.1.
Proof.
  apply (proj1 (hstack_reports_a_row exampleRuneWidth exampleStringWidth
                  [Some spacerNode] defaultStyle 0 AlignLeft 0 0 10 0
                  exampleWorld)).
  discriminate.
Defined.

(** Two spacers in a vertical stack of four columns and ten rows: the
    first is granted the rows 0 to 4. *)
Lemma vstack_grants_within_witness :
  let r := mkRect 0 0 4 5 in
  let bottom := 0 + 10 - Style.paddingBottom defaultStyle in
  Some spacerNode ∈ [Some spacerNode; Some spacerNode] ∧
  X r = 0 + Style.paddingLeft defaultStyle ∧
  W r = 4 - (Style.paddingLeft defaultStyle + Style.paddingRight defaultStyle) ∧
  Y r < bottom ∧ Y r + H r <= bottom.
Proof.
  apply (vstack_grants_within exampleRuneWidth World
           (render exampleRuneWidth exampleStringWidth)
           [Some spacerNode; Some spacerNode] defaultStyle 0 AlignLeft
           0 0 4 10 exampleWorld spacerNode (mkRect 0 0 4 5)).
  vm_compute. apply list_elem_of_here.
Defined.

(** A text of one column and a spacer in a horizontal stack of four
    columns and two rows: the spacer is granted the columns 1 to 3. *)
Lemma hstack_grants_within_witness :
  let r := mkRect 1 0 3 2 in
  Some spacerNode ∈ [Some (Text [97]); Some spacerNode] ∧
  Y r = 0 ∧ H r <= 2 ∧ X r < 0 + 4 ∧ X r + W r <= 0 + 4.
Proof.
  apply (hstack_grants_within exampleRuneWidth exampleStringWidth World
           (render exampleRuneWidth exampleStringWidth)
           [Some (Text [97]); Some spacerNode] defaultStyle 0 AlignLeft
           0 0 4 2 exampleWorld spacerNode (mkRect 1 0 3 2)).
  vm_compute. apply list_elem_of_further, list_elem_of_here.
Defined.

(** In a border of three columns and two rows every cell is on the
    perimeter. *)
Lemma renderBorder_perimeter_witness :
  (2, 0) ∈ position <$> renderBorder defaultStyle 0 0 3 2 ↔
  Contains (mkRect 0 0 3 2) 2 0 = true ∧
  (2 = 0 ∨ 2 = 0 + 3 - 1 ∨ 0 = 0 ∨ 0 = 0 + 2 - 1).
Proof.
  apply (renderBorder_perimeter defaultStyle 0 0 3 2 2 0); lia.
Defined.


End LayoutMore.

(** ** More properties of the runtime loop *)

Module RuntimeLoopMore.
Import Layout RuntimeLoop Frames.

Local Open Scope Z_scope.

Lemma terminated_cons r s :
  s ≠ [] → terminated (r :: s) = r :: terminated s.
Proof.
  intros Hs. unfold terminated. rewrite last_cons.
  destruct (last s) as [r'|] eqn:E.
  - by case_bool_decide.
  - by apply last_None in E.
Qed.

Lemma splitLinesFrom_lines s : ∀ cur,
  10 ∉ cur →
  Forall (fun line => 10 ∉ line) (splitLinesFrom cur s) ∧
  concat ((fun line => line ++ [10]) <$> splitLinesFrom cur s)
  = terminated (cur ++ s).
Proof.
  induction s as [|r rest IH]; intros cur Hcur; simpl.
  - rewrite app_nil_r. destruct cur as [|c cur'] eqn:E; [done|].
    rewrite <- E in *. split; [by constructor|]. simpl. rewrite app_nil_r.
    unfold terminated. destruct (last cur) as [r'|] eqn:El.
    + rewrite bool_decide_eq_false_2; [done|]. intros ->.
      apply Hcur. apply last_Some in El as [l' ->].
      apply elem_of_app. right. apply list_elem_of_here.
    + apply last_None in El. congruence.
  - case_bool_decide as Hr.
    + subst r. destruct (IH [] (not_elem_of_nil _)) as [Hall Hcat].
      split; [by constructor|]. rewrite fmap_cons. cbn [concat].
      rewrite Hcat, <- app_assoc. rewrite app_nil_l.
      change ([10] ++ terminated rest) with (10 :: terminated rest).
      clear. induction cur as [|c cur IHc]; rewrite ?app_nil_l, <- ?app_comm_cons.
      * destruct rest as [|r' rest']; [done|].
        symmetry. by apply terminated_cons.
      * etransitivity; [|symmetry; apply terminated_cons; by destruct cur].
        f_equal. exact IHc.
    + destruct (IH (cur ++ [r])) as [Hall Hcat].
      { rewrite elem_of_app, list_elem_of_singleton. intros [?|?]; auto. }
      split; [done|]. by rewrite Hcat, <- app_assoc.
Qed.

(** [splitLines] cuts a text at its line feeds and nowhere else: no line
    it returns holds a line feed, and the lines, each followed by a line
    feed, make up the text, with a line feed added if the text does not
    end with one.  An empty last line is not returned. *)
Theorem splitLines_round_trip (s : list rune) :
  Forall (fun line => 10 ∉ line) (splitLines s) ∧
  concat ((fun line => line ++ [10]) <$> splitLines s) = terminated s.
Proof. apply (splitLinesFrom_lines s []), not_elem_of_nil. Qed.





Section WithApp.

Variable Value : Type.
Variable format : Value → list rune.
Variable App : Type.
Variable rootAndRender : Z * Z → Focus.FocusManager → App → Outcome Value App.

Lemma proxyCall_fold_frame ops : ∀ r : Runtime Value App,
  let r' := fold_left (proxyCall Value App) ops r in
  cells (screen r') = paint (size (screen r)) ops (cells (screen r)) ∧
  cursor (screen r') = cursor (screen r) ∧
  shown (screen r') = shown (screen r) ∧
  size (screen r') = size (screen r) ∧
  (showCursor r', cursorX r', cursorY r')
  = match lastCaret ops with
    | Some (cx, cy) => (true, cx, cy)
    | None => (showCursor r, cursorX r, cursorY r)
    end.
Proof.
  induction ops as [|op ops IH]; intros r; [done|].
  specialize (IH (proxyCall Value App r op)).
  cbn [fold_left] in *. cbv zeta in *.
  destruct IH as (-> & -> & -> & -> & ->).
  destruct op as [x y mainc combc style|x y]; simpl; [done|].
  repeat split. unfold lastCaret. simpl. rewrite last_cons.
  set (l := last (omap caretOf ops)).
  change (last (list_omap _ _ caretOf ops)) with l.
  by destruct l as [[cx cy]|].
Qed.

(** A pass without a panic, in a runtime that has recorded none: the
    terminal shows the cells that the calls of this pass set on a cleared
    screen and nothing of the frame before; the caret is the one of the
    last [ShowCursor] of this pass and is hidden if the pass made none; the
    runtime records no panic, and keeps the focus manager and the state
    that the root component left. *)
Theorem render_normal_pass (r : Runtime Value App) :
  let o := rootAndRender (size (screen r)) (Focus.Reset (focusManager r))
             (app r) in
  lastPanic r = None → o_panic o = None →
  let r' := render Value format App rootAndRender r in
  shown (screen r') = paint (size (screen r)) (o_ops o) ∅ ∧
  cells (screen r') = shown (screen r') ∧
  cursor (screen r') = lastCaret (o_ops o) ∧
  size (screen r') = size (screen r) ∧
  lastPanic r' = None ∧
  focusManager r' = o_focus o ∧ app r' = o_app o.
Proof.
  intros o Hl Hp. unfold render. cbv zeta.
  change (lastPanic (withScreen _ _ (Screen_Clear (screen r)) r))
    with (lastPanic r).
  rewrite Hl. change (rootAndRender _ _ _) with o. rewrite Hp.
  match goal with
  | |- context [fold_left _ (o_ops o) ?r0] =>
      destruct (proxyCall_fold_frame (o_ops o) r0) as (Hc & Hcur & Hsh & Hsz & Hcar);
      pose proof (RuntimeLoopFacts.proxyCall_fold Value App (o_ops o) r0)
        as (_ & Hlp & _ & Happ & Hfm);
      set (r1 := fold_left _ (o_ops o) r0) in *
  end.
  cbn [screen size cells cursor shown showCursor cursorX cursorY lastPanic
       app focusManager] in *.
  destruct (lastCaret (o_ops o)) as [[cx cy]|] eqn:Ecar;
    injection Hcar as Hshow Hx Hy; rewrite Hshow; simpl.
  - rewrite Hc, Hx, Hy, Hsz, Hlp, Hfm, Happ. done.
  - rewrite Hc, Hsz, Hlp, Hfm, Happ. done.
Qed.

End WithApp.

(** A pass of [caretRoot] on the test runtime: the caret is shown next to
    the cell. *)
Lemma render_normal_pass_witness :
  let r := testRuntime in
  let o := caretRoot (size (screen r)) (Focus.Reset (focusManager r)) (app r) in
  let r' := render (list rune) id unit caretRoot r in
  shown (screen r') = paint (size (screen r)) (o_ops o) ∅ ∧
  cells (screen r') = shown (screen r') ∧
  cursor (screen r') = lastCaret (o_ops o) ∧
  size (screen r') = size (screen r) ∧
  lastPanic r' = None ∧
  focusManager r' = o_focus o ∧ app r' = o_app o.
Proof.
  apply (render_normal_pass (list rune) id unit caretRoot testRuntime);
    reflexivity.
Defined.

End RuntimeLoopMore.

(** ** More properties of the bridge *)

Module BridgeMore.
Import Bridge.

Section WithTypes.

Variable Q : Type.
Variable A : Type.
Variable QEqual : Q → Q → bool.

(** What the UI sees of a question right after [Ask] has published it,
    before any render: the cell of the component holds the question and,
    with a runtime, a refresh is requested.  A bridge that shares its
    [State] object with the handle of the background task shows the
    question at once.  A bridge with another [State] object (one made by a
    later render) shows what it showed before; if that is nothing, a
    [Submit] on it returns at once, sends nothing, and [Ask] goes on
    waiting. *)
Theorem publish_visibility (q : Q) (c0 : Config Q A) :
  starts Q A q c0 →
  ∃ c, run Q A QEqual [ActMake; ActPublish] c0 = Some c ∧
       asker c = AskWaiting (nextChan c0) ∧
       Hooks.getState "bridge_interaction" (Hooks.h_ctx (heap c))
       = Some (Some {| question := q; answerCh := nextChan c0 |}) ∧
       (Hooks.hasRuntime (Hooks.h_ctx (heap c0)) = true →
        Hooks.refreshChan (Hooks.h_runtime (heap c)) = true) ∧
       (uiHandle c0 = askHandle c0 → Interaction c = Some q) ∧
       (uiHandle c0 ≠ askHandle c0 →
        Interaction c = Interaction c0 ∧
        (HasInteraction c0 = false →
         is_Some (handles c0 !! uiHandle c0) →
         ∀ a, step Q A QEqual (ActSubmit a) c = Some c)).
Proof.
  intros [Hask Hui ([v k] & Hs & Hkey) Hch]. simpl in Hkey. subst k.
  set (p := {| question := q; answerCh := nextChan c0 |}).
  assert (Hne : DeepEqual Q QEqual v (Some p) = false).
  { destruct v as [p'|]; [|done]. simpl.
    specialize (Hch _ _ (answerCh p') Hs eq_refl).
    apply andb_false_iff. right. apply Nat.eqb_neq. lia. }
  cbn [run]. unfold step at 1. rewrite Hask.
  cbn [run]. unfold step at 1. cbn [asker handles askHandle heap]. rewrite Hs.
  unfold Hooks.State_Set. cbn [Hooks.Val Hooks.key]. fold p. rewrite Hne.
  eexists. split; [reflexivity|]. cbn [asker heap].
  split; [done|]. split; [|split; [|split]].
  - rewrite BridgeFacts.getState_Refresh. unfold Hooks.getState. simpl.
    apply lookup_insert_eq.
  - intros Hrt. unfold Hooks.Refresh. simpl. rewrite Hrt. simpl.
    unfold Hooks.scheduleRefresh.
    by destruct (Hooks.refreshChan (Hooks.h_runtime (heap c0))) eqn:E.
  - intros ->. unfold Interaction. simpl. by rewrite lookup_insert_eq.
  - intros Hne'. split.
    + unfold Interaction. cbn [handles uiHandle askHandle].
      by rewrite lookup_insert_ne.
    + intros Hno [[v' k'] Hs'] a.
      assert (v' = None) as ->.
      { destruct v' as [p'|]; [exfalso|done]. revert Hno.
        unfold HasInteraction.
        match goal with
        | |- context [match ?X with Some _ => _ | None => _ end] =>
            change X with (handles c0 !! uiHandle c0); rewrite Hs'
        end.
        done. }
      unfold step. cbn [ui handles uiHandle askHandle].
      rewrite Hui, lookup_insert_ne by done.
      match goal with
      | |- context [match ?X with Some _ => _ | None => _ end] =>
          change X with (handles c0 !! uiHandle c0); rewrite Hs'
      end.
      done.
Qed.

End WithTypes.

(** The bridge of the example after a second render, whose bridge has a
    [State] object of its own: the question is published and the bridge of
    the UI does not show it. *)
Lemma publish_visibility_witness :
  ∃ c0 c, run string bool String.eqb [ActRender] exampleConfig = Some c0 ∧
          run string bool String.eqb [ActMake; ActPublish] c0 = Some c ∧
          asker c = AskWaiting (nextChan c0) ∧
          Interaction c = None ∧
          step string bool String.eqb (ActSubmit true) c = Some c.
Proof.
  eexists. 
  assert (Hstart : starts string bool "delete?"
            {| heap := heap exampleConfig;
               handles := <[1%nat := {| Hooks.Val := None;
                                        Hooks.key := "bridge_interaction" |}]>
                            (handles exampleConfig);
               nextHandle := 2; nextChan := 0; askHandle := 0; uiHandle := 1;
               asker := AskStart "delete?"; ui := UiIdle |}).
  { split; [reflexivity|reflexivity| |].
    - eexists. split; [reflexivity|reflexivity].
    - intros i s ch Hs Hc. simpl in Hs.
      apply lookup_insert_Some in Hs as [[_ <-]|[_ Hs]]; [discriminate Hc|].
      apply lookup_singleton_Some in Hs as [_ <-]. discriminate Hc. }
  destruct (publish_visibility string bool String.eqb "delete?" _ Hstart)
    as (c & Hrun & Hask & _ & _ & _ & Hother).
  destruct Hother as [Hint Hsub]; [discriminate|].
  exists c. split; [reflexivity|]. split; [exact Hrun|].
  split; [exact Hask|]. split; [by rewrite Hint|].
  apply Hsub; [reflexivity|]. eexists. reflexivity.
Defined.

End BridgeMore.

(** ** The life of an effect: runs and cleanups *)

Module EffectsMore.
Import Hooks.

Section WithValues.

Variable any : Type.
Variable DeepEqual : any → any → bool.

Lemma effectPass_balance (ds : list any)
    (c : componentContext any (nat * nat)) (w : nat * nat) :
  (effects c = ∅ ∧ w.1 = w.2) ∨
  (∃ ds0 cl, effects c = {[ 0%Z := {| deps := ds0; cleanup := Some cl;
                                      ran := true |} ]} ∧
             (∀ w', cl w' = (w'.1, S w'.2)) ∧ w.1 = S w.2) →
  let cw := Renders.effectPass any DeepEqual _ countingEffect ds (c, w) in
  (∃ ds0 cl, effects cw.1 = {[ 0%Z := {| deps := ds0; cleanup := Some cl;
                                         ran := true |} ]} ∧
             (∀ w', cl w' = (w'.1, S w'.2)) ∧ cw.2.1 = S cw.2.2) ∧
  w.1 <= cw.2.1 <= S w.1.
Proof.
  unfold Renders.effectPass, UseEffect, nextEffectKey, getEffectSlot, reset.
  cbn [fst snd effects effectIndex].
  intros [[He Hw]|(ds0 & cl & He & Hcl & Hw)]; rewrite He.
  - rewrite lookup_empty. cbn [ran cleanup negb orb].
    unfold countingEffect, setEffectSlot. cbn [effects fst snd]. split; [|lia].
    eexists _, _. split; [|split; [done|simpl; lia]].
    by rewrite insert_insert_eq, insert_empty.
  - rewrite lookup_singleton_eq. cbn [ran deps cleanup negb orb].
    destruct (depsEqual DeepEqual ds0 ds); cbn [negb].
    + cbn [fst snd effects]. split; [eauto 10|lia].
    + unfold countingEffect, setEffectSlot. rewrite Hcl.
      cbn [effects fst snd]. split; [|lia].
      eexists _, _.
      split; [by rewrite insert_singleton_eq|split; [done|simpl; lia]].
Qed.

(** Runs and cleanups of an effect are paired.  For a component that
    registers one effect and is rendered any number of times, with any
    dependencies at each render, and then torn down by [cleanup]: every
    run of the effect has been followed by exactly one call of the cleanup
    it returned, before the next run or at the tear-down; and the effect
    has run at most once for each render. *)
Theorem effect_cleanup_balance (dss : list (list any))
    (c0 : componentContext any (nat * nat)) (n : nat) :
  effects c0 = ∅ →
  let '(c, w) :=
    fold_left (fun cw ds =>
                 Renders.effectPass any DeepEqual _ countingEffect ds cw)
      dss (c0, (n, n)) in
  (cleanupAll c w).1 = (cleanupAll c w).2 ∧
  (cleanupAll c w).1 = w.1 ∧
  n <= w.1 <= n + length dss.
Proof.
  intros He0.
  assert (Hinv : ∀ dss (c : componentContext any (nat * nat)) w,
    ((effects c = ∅ ∧ w.1 = w.2) ∨
     (∃ ds0 cl, effects c = {[ 0%Z := {| deps := ds0; cleanup := Some cl;
                                         ran := true |} ]} ∧
                (∀ w', cl w' = (w'.1, S w'.2)) ∧ w.1 = S w.2)) →
    let cw := fold_left (fun cw ds =>
                 Renders.effectPass any DeepEqual _ countingEffect ds cw)
                dss (c, w) in
    ((effects cw.1 = ∅ ∧ cw.2.1 = cw.2.2) ∨
     (∃ ds0 cl, effects cw.1 = {[ 0%Z := {| deps := ds0; cleanup := Some cl;
                                            ran := true |} ]} ∧
                (∀ w', cl w' = (w'.1, S w'.2)) ∧ cw.2.1 = S cw.2.2)) ∧
    w.1 <= cw.2.1 <= w.1 + length dss).
  { clear. induction dss as [|ds dss IH]; intros c w Hi; simpl.
    - split; [done|lia].
    - destruct (effectPass_balance ds c w Hi) as [Hi' Hb].
      destruct (Renders.effectPass any DeepEqual _ countingEffect ds (c, w))
        as [c1 w1]. simpl in Hi', Hb.
      destruct (IH c1 w1 (or_intror Hi')) as [Hi'' Hb'].
      split; [done|lia]. }
  specialize (Hinv dss c0 (n, n) (or_introl (conj He0 eq_refl))).
  destruct (fold_left _ dss _) as [c w]. simpl in Hinv.
  destruct Hinv as [[[He Hw]|(ds0 & cl & He & Hcl & Hw)] Hb];
    unfold cleanupAll; rewrite He.
  - rewrite map_to_list_empty. simpl. split; [done|]. split; [done|lia].
  - rewrite map_to_list_singleton. simpl. rewrite Hcl. simpl.
    split; [done|]. split; [done|lia].
Qed.

End WithValues.

(** Three renders with the dependencies [a], [a] and [b]: two runs, two
    cleanups after the tear-down. *)
Lemma effect_cleanup_balance_witness :
  let '(c, w) :=
    fold_left (fun cw ds =>
                 Renders.effectPass string depString _ countingEffect ds cw)
      [["a"]; ["a"]; ["b"]]
      (newComponentContext string (nat * nat) true, (0, 0))%nat in
  (cleanupAll c w).1 = (cleanupAll c w).2 ∧
  (cleanupAll c w).1 = w.1 ∧
  (0 <= w.1 <= 0 + length [["a"]; ["a"]; ["b"]])%nat.
Proof.
  apply (effect_cleanup_balance string depString [["a"]; ["a"]; ["b"]]
           (newComponentContext string (nat * nat) true) 0%nat).
  reflexivity.
Defined.

End EffectsMore.
